(** * The bridge relayer of [script.py]: replay store, event processor,
      broadcaster and listener loop, as a shallow embedding.

    Python objects become records, dictionaries read with [.get] become
    records of optional fields, and every method that touches the outside
    world (the state file, the destination node, the gas station, the log)
    is a computation in the monad [M] over a [World].  An exception is a
    second kind of outcome, and the state reached when it is raised is kept,
    as in Python. *)

From Stdlib Require Import ZArith List String Ascii Strings.Byte Lia Bool.
From stdpp Require Import base strings list gmap.
Import ListNotations.

Local Open Scope string_scope.
Local Open Scope Z_scope.

(* ===================================================================== *)
(** ** Python values *)
(* ===================================================================== *)

(** [HexBytes]: the byte strings web3 returns for hashes. *)
Definition HexBytes := list byte.

Definition hex_digit (n : N) : ascii :=
  match n with
  | 0%N => "0" | 1%N => "1" | 2%N => "2" | 3%N => "3"
  | 4%N => "4" | 5%N => "5" | 6%N => "6" | 7%N => "7"
  | 8%N => "8" | 9%N => "9" | 10%N => "a" | 11%N => "b"
  | 12%N => "c" | 13%N => "d" | 14%N => "e" | _ => "f"
  end%char.

Definition hex_of_byte (b : byte) : string :=
  let n := Byte.to_N b in
  String (hex_digit (n / 16)) (String (hex_digit (n mod 16)) EmptyString).

(** [HexBytes.hex()] of the hexbytes release web3 v6 depends on (the release
    line that still has [geth_poa_middleware]): the digits after a ["0x"]
    prefix. *)
Definition hex (b : HexBytes) : string :=
  "0x" ++ String.concat EmptyString (map hex_of_byte b).

(** Truth value of a Python object that is [None], a [str] or an [int]. *)
Definition truthy_str (v : option string) : bool :=
  match v with
  | Some s => negb (String.eqb s EmptyString)
  | None => false
  end.

Definition truthy_int (v : option Z) : bool :=
  match v with
  | Some n => negb (n =? 0)
  | None => false
  end.

(** Python's [all]. *)
Definition all (l : list bool) : bool := forallb id l.

(* ===================================================================== *)
(** ** Events and transactions *)
(* ===================================================================== *)

(** [event['args']], read with [.get]: an absent key and [None] are the same
    to the reader. *)
Record EventArgs := {
  sender : option string;
  recipient : option string;
  amount : option Z;
  destinationChainId : option Z;
  nonce : option Z
}.

(** A log entry as the filter delivers it.  [transactionHash] and [args] are
    read with subscripts, [blockNumber] with [.get]. *)
Record Event := {
  transactionHash : HexBytes;
  blockNumber : option Z;
  args : EventArgs
}.

(** The dictionary [process_event] returns. *)
Record PreparedTx := {
  tx_recipient : option string;
  tx_amount : option Z;
  source_tx_hash : HexBytes;
  original_event : Event
}.

(** The dictionary [build_transaction] is called with, together with the
    arguments of the [mintBridgedTokens] call it wraps. *)
Record TxPayload := {
  mint_recipient : option string;
  mint_amount : option Z;
  mint_sourceTxHash : HexBytes;
  tx_from : string;
  tx_nonce : Z;
  tx_gas : Z;
  tx_gasPrice : Z
}.

Record Receipt := {
  status : Z;
  receipt_blockNumber : Z
}.

(* ===================================================================== *)
(** ** The outside world *)
(* ===================================================================== *)

(** What [open] and [json.load] find in the state file.  The list of an
    object is the value of its key [processed_hashes], [None] when the object
    has no such key.  The value is a list of strings, the type [_load]
    declares for it ([List[str]]) and the only one [_save] writes; an object
    with a value of another type under that key is outside that type and is
    not among the cases. *)
Inductive file :=
| Unreadable                                  (* [open] raises [IOError] *)
| NotUtf8                                     (* the bytes are no UTF-8 text: [json.load] raises [UnicodeDecodeError] *)
| Garbage                                     (* text that is no JSON: [json.load] raises [JSONDecodeError] *)
| JsonObject (hashes : option (list string))  (* a JSON object, with the list under [processed_hashes] if the key is there *)
| JsonOther.                                  (* valid JSON that is no object: a list, text, a number, [true], [false] or [null] *)

(** The answers of the destination node to the calls of one [broadcast];
    [None] or [false] is a call that raises. *)
Record node_reply := {
  get_transaction_count : option Z;
  encode_call : bool;
  gas_price : option Z;
  build_transaction : bool;
  sign_transaction : option HexBytes;
  send_raw_transaction : option HexBytes;
  wait_for_transaction_receipt : option Receipt
}.

(** A node that cannot be reached. *)
Definition unreachable : node_reply :=
  {| get_transaction_count := None; encode_call := false; gas_price := None;
     build_transaction := false; sign_transaction := None;
     send_raw_transaction := None; wait_for_transaction_receipt := None |}.

(** The value of [data.get('fast', {}).get('maxFee')], by what the method
    and [web3.to_wei] do with it.  A fee in [Gwei] is one [to_wei] takes
    digit for digit: an integer, a float (read as [str] prints it) or text of
    plain digits with at most one point.  Text in another notation or of
    more digits than the 999 [to_wei] computes with, which it rounds before
    it multiplies, is not among the cases. *)
Inductive fee :=
| NoFee                               (* falsy: the key is absent, or the value is null, false, 0, 0.0 or empty *)
| Gwei (mantissa : Z) (places : nat)  (* truthy and read as the decimal [mantissa / 10^places]: a number other
                                         than zero, as [str] prints it, or text that reads as a number *)
| Infinite                            (* Infinity or -Infinity: [to_wei] raises [ValueError] *)
| NotDecimal                          (* NaN, or text that reads as no number: [decimal.InvalidOperation] *)
| WrongType.                          (* true, or a list or object that is not empty: [TypeError] *)

(** The answer of the gas station to [requests.get]. *)
Inductive oracle_reply :=
| RequestFails            (* transport error, HTTP error status or a body that is no JSON *)
| BodyMalformed           (* JSON that is no object, or whose ['fast'] is no object: [.get] raises [AttributeError] *)
| GasStation (maxFee : fee).

Inductive level := INFO | WARNING | ERROR.

(** One constructor per [logging] call of the modelled methods. *)
Inductive log_msg :=
| LoadFailed (path : string)
| SaveFailed (path : string)
| MarkedProcessed (tx_hash : string)
| AlreadyProcessed (tx_hash : string)
| ProcessingNew (tx_hash : string)
| DifferentChain (tx_hash : string)
| MissingArguments (tx_hash : string)
| Prepared (tx : PreparedTx)
| GasApiFailed
| Broadcasting (source_hash : string)
| WouldBroadcast (tx_hash : string)
| Broadcasted (tx_hash : string)
| ConfirmedInBlock (block : Z)
| TransactionFailed (r : Receipt)
| BroadcastFailed
| TooRecent (block : Z)
| BlockNotFoundReinit
| ListenerError.

(** What the program does to its surroundings, in order. *)
Inductive effect :=
| Log (lvl : level) (msg : log_msg)
| HttpGet (url : string)
| RpcGetTransactionCount (address : string)
| RpcGasPrice
| RpcSendRawTransaction (tx : TxPayload)
| RpcWaitForReceipt (tx_hash : HexBytes) (timeout : Z)
| CreateFilter
| Sleep (seconds : Z).

Record World := {
  files : gmap string file;        (* the file system *)
  write_ok : bool;                 (* do [open(path, 'w')] and [json.dump] succeed *)
  write_tears : bool;              (* if they do not: [true] when the [IOError] comes after
                                      [open] has emptied the file, [false] when [open] raises *)
  node : list node_reply;          (* the node's answers to the coming broadcasts *)
  oracle : string -> oracle_reply; (* the gas station behind each URL *)
  trace : list effect              (* effects so far, oldest first *)
}.

Definition emit (e : effect) (w : World) : World :=
  {| files := files w; write_ok := write_ok w; write_tears := write_tears w; node := node w;
     oracle := oracle w; trace := trace w ++ [e] |}.

Definition write_file (path : string) (f : file) (w : World) : World :=
  {| files := <[path := f]> (files w); write_ok := write_ok w; write_tears := write_tears w; node := node w;
     oracle := oracle w; trace := trace w |}.

Definition drop_reply (w : World) : World :=
  {| files := files w; write_ok := write_ok w; write_tears := write_tears w; node := tl (node w);
     oracle := oracle w; trace := trace w |}.

(* ===================================================================== *)
(** ** The monad of effects and exceptions *)
(* ===================================================================== *)

Inductive exn :=
| IOError | JSONDecodeError | AttributeError | RequestException
| Web3Error | TimeExhausted | BlockNotFound
| UnicodeDecodeError | ValueError | TypeError | InvalidOperation.

Inductive outcome (A : Type) :=
| Ret (a : A)
| Raise (e : exn).
Arguments Ret {A} a.
Arguments Raise {A} e.

Definition M (A : Type) : Type := World -> outcome A * World.

Definition ret {A} (a : A) : M A := fun w => (Ret a, w).
Definition raise {A} (e : exn) : M A := fun w => (Raise e, w).

Definition bind {A B} (m : M A) (k : A -> M B) : M B :=
  fun w =>
    match m w with
    | (Ret a, w') => k a w'
    | (Raise e, w') => (Raise e, w')
    end.

(** [try: m  except <catches> as e: handler e]. *)
Definition try_except {A} (m : M A) (catches : exn -> bool) (handler : exn -> M A) : M A :=
  fun w =>
    match m w with
    | (Ret a, w') => (Ret a, w')
    | (Raise e, w') => if catches e then handler e w' else (Raise e, w')
    end.

Declare Scope py_scope.
Delimit Scope py_scope with py.
Notation "x <- m ;; k" := (bind m (fun x => k))
  (at level 100, m at next level, right associativity) : py_scope.
Notation "m ;; k" := (bind m (fun _ => k))
  (at level 100, right associativity) : py_scope.
Local Open Scope py_scope.

Definition perform (e : effect) : M unit := fun w => (Ret tt, emit e w).
Definition logging (lvl : level) (msg : log_msg) : M unit := perform (Log lvl msg).

(** The value of a call that answers [o], raising [e] when there is none. *)
Definition answer {A} (o : option A) (e : exn) : M A :=
  match o with
  | Some a => ret a
  | None => raise e
  end.

Definition succeeds (ok : bool) (e : exn) : M unit :=
  if ok then ret tt else raise e.

(** [except Exception]. *)
Definition any_exception (e : exn) : bool := true.

(* ===================================================================== *)
(** ** StateDB *)
(* ===================================================================== *)

Record StateDB := {
  filepath : string;
  processed_hashes : list string
}.

Definition io_or_json_error (e : exn) : bool :=
  match e with
  | IOError | JSONDecodeError => true
  | _ => false
  end.

Definition is_io_error (e : exn) : bool :=
  match e with
  | IOError => true
  | _ => false
  end.

(** [open(path, 'r')] followed by [json.load] and [data.get('processed_hashes', [])]. *)
Definition read_state (f : file) : M (list string) :=
  match f with
  | Unreadable => raise IOError
  | NotUtf8 => raise UnicodeDecodeError
  | Garbage => raise JSONDecodeError
  | JsonObject (Some hashes) => ret hashes
  | JsonObject None => ret []
  | JsonOther => raise AttributeError
  end.

Definition _load (path : string) : M (list string) :=
  fun w =>
    match files w !! path with
    | None => ret [] w
    | Some f =>
        try_except (read_state f) io_or_json_error
          (fun _ => logging ERROR (LoadFailed path) ;; ret []) w
    end.

(** [StateDB.__init__]. *)
Definition StateDB_init (path : string) : M StateDB :=
  hashes <- _load path ;;
  ret {| filepath := path; processed_hashes := hashes |}.

(** [open(path, 'w')] followed by [json.dump].  A write that fails after
    [open] leaves the file empty or with the beginning of the object, which
    is no JSON. *)
Definition dump_state (self : StateDB) : M unit :=
  fun w =>
    if write_ok w
    then (Ret tt, write_file (filepath self) (JsonObject (Some (processed_hashes self))) w)
    else if write_tears w
    then (Raise IOError, write_file (filepath self) Garbage w)
    else (Raise IOError, w).

Definition _save (self : StateDB) : M unit :=
  try_except (dump_state self) is_io_error
    (fun _ => logging ERROR (SaveFailed (filepath self))).

Definition is_processed (self : StateDB) (tx_hash : string) : bool :=
  bool_decide (tx_hash ∈ processed_hashes self).

(** [mark_as_processed] mutates the object: the result is the object after
    the call. *)
Definition mark_as_processed (self : StateDB) (tx_hash : string) : M StateDB :=
  if negb (is_processed self tx_hash) then
    let self' := {| filepath := filepath self;
                    processed_hashes := processed_hashes self ++ [tx_hash] |} in
    _save self' ;;
    logging INFO (MarkedProcessed tx_hash) ;;
    ret self'
  else ret self.

(* ===================================================================== *)
(** ** EventProcessor *)
(* ===================================================================== *)

Record EventProcessor := {
  state_db : StateDB;
  destination_chain_id : Z
}.

Definition process_event (self : EventProcessor) (event : Event) : M (option PreparedTx) :=
  let tx_hash := hex (transactionHash event) in
  if is_processed (state_db self) tx_hash then
    logging WARNING (AlreadyProcessed tx_hash) ;;
    ret None
  else
    let event_args := args event in
    logging INFO (ProcessingNew tx_hash) ;;
    if negb (bool_decide (destinationChainId event_args = Some (destination_chain_id self))) then
      logging INFO (DifferentChain tx_hash) ;;
      ret None
    else
      let recipient := recipient event_args in
      let amount := amount event_args in
      if negb (all [truthy_str recipient; truthy_int amount]) then
        logging ERROR (MissingArguments tx_hash) ;;
        ret None
      else
        let prepared_tx := {| tx_recipient := recipient;
                              tx_amount := amount;
                              source_tx_hash := transactionHash event;
                              original_event := event |} in
        logging INFO (Prepared prepared_tx) ;;
        ret (Some prepared_tx).

(* ===================================================================== *)
(** ** TransactionBroadcaster *)
(* ===================================================================== *)

Record TransactionBroadcaster := {
  account_address : string;
  private_key : string;
  simulate_only : bool
}.

(** The largest amount [to_wei] returns. *)
Definition MAX_WEI : Z := 2 ^ 256 - 1.

Definition is_request_exception (e : exn) : bool :=
  match e with
  | RequestException => true
  | _ => false
  end.

(** [requests.get(api_url)], [raise_for_status()], [response.json()] and the
    two [.get] that reach the fee. *)
Definition fetch_max_fee (api_url : string) : M fee :=
  perform (HttpGet api_url) ;;
  (fun w => match oracle w api_url with
            | RequestFails => raise RequestException w
            | BodyMalformed => raise AttributeError w
            | GasStation maxFee => ret maxFee w
            end).

(** [web3.to_wei(v, 'gwei')] for a value read as [mantissa / 10^places]: the
    product with 10^9, cut to an integer; [ValueError] when the product is
    below 0 or above 2^256 - 1. *)
Definition to_wei_gwei (mantissa : Z) (places : nat) : M Z :=
  let scale := 10 ^ Z.of_nat places in
  if (mantissa <? 0) || (MAX_WEI * scale <? mantissa * 1000000000)
  then raise ValueError
  else ret (mantissa * 1000000000 / scale).

Definition get_gas_price_from_api (self : TransactionBroadcaster) (api_url : string)
  : M (option Z) :=
  try_except
    (gas_price_gwei <- fetch_max_fee api_url ;;
     match gas_price_gwei with
     | NoFee => ret None
     | Gwei mantissa places =>
         wei <- to_wei_gwei mantissa places ;;
         ret (Some wei)
     | Infinite => raise ValueError
     | NotDecimal => raise InvalidOperation
     | WrongType => raise TypeError
     end)
    is_request_exception
    (fun _ => logging ERROR GasApiFailed ;; ret None).

(** The node's answers to this call; they are used up by it. *)
Definition next_reply : M node_reply :=
  fun w => (Ret (hd unreachable (node w)), drop_reply w).

Definition broadcast (self : TransactionBroadcaster) (tx_data : PreparedTx)
  : M (option string) :=
  try_except
    (r <- next_reply ;;
     perform (RpcGetTransactionCount (account_address self)) ;;
     nonce <- answer (get_transaction_count r) Web3Error ;;
     succeeds (encode_call r) Web3Error ;;
     perform RpcGasPrice ;;
     gasPrice <- answer (gas_price r) Web3Error ;;
     succeeds (build_transaction r) Web3Error ;;
     let tx_payload := {| mint_recipient := tx_recipient tx_data;
                          mint_amount := tx_amount tx_data;
                          mint_sourceTxHash := source_tx_hash tx_data;
                          tx_from := account_address self;
                          tx_nonce := nonce;
                          tx_gas := 200000;
                          tx_gasPrice := gasPrice |} in
     signed_tx_hash <- answer (sign_transaction r) Web3Error ;;
     logging INFO (Broadcasting (hex (source_tx_hash tx_data))) ;;
     if simulate_only self then
       logging WARNING (WouldBroadcast (hex signed_tx_hash)) ;;
       ret (Some (hex signed_tx_hash))
     else
       perform (RpcSendRawTransaction tx_payload) ;;
       tx_hash <- answer (send_raw_transaction r) Web3Error ;;
       logging INFO (Broadcasted (hex tx_hash)) ;;
       perform (RpcWaitForReceipt tx_hash 120) ;;
       receipt <- answer (wait_for_transaction_receipt r) TimeExhausted ;;
       if status receipt =? 1 then
         logging INFO (ConfirmedInBlock (receipt_blockNumber receipt)) ;;
         ret (Some (hex tx_hash))
       else
         logging ERROR (TransactionFailed receipt) ;;
         ret None)
    any_exception
    (fun _ => logging ERROR BroadcastFailed ;; ret None).

(* ===================================================================== *)
(** ** BridgeContractListener *)
(* ===================================================================== *)

Record BridgeContractListener := {
  dest_broadcaster : TransactionBroadcaster;
  event_processor : EventProcessor;
  poll_interval : Z;
  confirmation_blocks : Z
}.

(** The listener after [mark_as_processed] has changed its processor's store. *)
Definition with_state_db (self : BridgeContractListener) (db : StateDB)
  : BridgeContractListener :=
  {| dest_broadcaster := dest_broadcaster self;
     event_processor := {| state_db := db;
                           destination_chain_id :=
                             destination_chain_id (event_processor self) |};
     poll_interval := poll_interval self;
     confirmation_blocks := confirmation_blocks self |}.

(** The hashes the listener's store holds in memory. *)
Definition stored (self : BridgeContractListener) : list string :=
  processed_hashes (state_db (event_processor self)).

(** Truth value of the string [broadcast] returns. *)
Definition truthy_hash (h : option string) : bool := truthy_str h.

(** Lines 309-315: [process_event], then [broadcast], then [mark_as_processed]. *)
Definition relay (self : BridgeContractListener) (event : Event)
  : M BridgeContractListener :=
  prepared_tx <- process_event (event_processor self) event ;;
  match prepared_tx with
  | Some tx =>
      broadcast_hash <- broadcast (dest_broadcaster self) tx ;;
      if truthy_hash broadcast_hash then
        let source_hash := hex (source_tx_hash tx) in
        db <- mark_as_processed (state_db (event_processor self)) source_hash ;;
        ret (with_state_db self db)
      else ret self
  | None => ret self
  end.

(** The condition of line 305. *)
Definition too_recent (self : BridgeContractListener) (latest_block : Z) (event : Event)
  : bool :=
  let event_block := blockNumber event in
  truthy_int event_block &&
  (latest_block - default 0 event_block <? confirmation_blocks self).

(** The body of the [for] loop, lines 302-315. *)
Definition loop_body (self : BridgeContractListener) (latest_block : Z) (event : Event)
  : M BridgeContractListener :=
  if too_recent self latest_block event then
    logging INFO (TooRecent (default 0 (blockNumber event))) ;;
    ret self
  else relay self event.

Fixpoint for_events (self : BridgeContractListener) (latest_block : Z)
    (events : list Event) : M BridgeContractListener :=
  match events with
  | [] => ret self
  | event :: rest =>
      self' <- loop_body self latest_block event ;;
      for_events self' latest_block rest
  end.

(** What the source chain gives one pass of the [while] loop:
    [web3.eth.block_number] and [event_filter.get_new_entries()]; for a poll
    that raises [BlockNotFound], also whether the [create_filter] of its
    handler goes through. *)
Inductive poll :=
| Polled (latest_block : Z) (events : list Event)
| PollBlockNotFound (filter_created : bool)
| PollFails.

Definition source_poll (p : poll) : M (Z * list Event) :=
  match p with
  | Polled latest_block events => ret (latest_block, events)
  | PollBlockNotFound _ => raise BlockNotFound
  | PollFails => raise Web3Error
  end.

(** [source_contract.events.TokensDeposited.create_filter(fromBlock='latest')]
    in the handler of [BlockNotFound]: a call to the node, which can raise. *)
Definition create_filter (p : poll) : M unit :=
  perform CreateFilter ;;
  match p with
  | PollBlockNotFound false => raise Web3Error
  | _ => ret tt
  end.

Definition is_block_not_found (e : exn) : bool :=
  match e with
  | BlockNotFound => true
  | _ => false
  end.

(** One pass of the [while] loop of [run]: the first [except] clause that
    matches handles the exception; what a handler raises is handled by
    nothing and leaves [run]. *)
Definition run_once (self : BridgeContractListener) (p : poll) : M BridgeContractListener :=
  try_except
    (polled <- source_poll p ;;
     self' <- for_events self (fst polled) (snd polled) ;;
     perform (Sleep (poll_interval self)) ;;
     ret self')
    any_exception
    (fun e =>
       if is_block_not_found e then
         logging WARNING BlockNotFoundReinit ;;
         create_filter p ;;
         perform (Sleep (poll_interval self * 2)) ;;
         ret self
       else
         logging ERROR ListenerError ;;
         perform (Sleep (poll_interval self * 2)) ;;
         ret self).

(** [run], for the passes made before [stop_event] is set; an exception that
    leaves a pass ends the loop. *)
Fixpoint run (self : BridgeContractListener) (polls : list poll) : M BridgeContractListener :=
  match polls with
  | [] => ret self
  | p :: rest =>
      self' <- run_once self p ;;
      run self' rest
  end.

(* ===================================================================== *)
(** ** Worlds that differ by a stretch of trace *)
(* ===================================================================== *)

Definition extend (w : World) (tr : list effect) : World :=
  {| files := files w; write_ok := write_ok w; write_tears := write_tears w; node := node w;
     oracle := oracle w; trace := trace w ++ tr |}.

Definition with_oracle (o : string -> oracle_reply) (w : World) : World :=
  {| files := files w; write_ok := write_ok w; write_tears := write_tears w; node := node w;
     oracle := o; trace := trace w |}.

Definition is_log (e : effect) : bool :=
  match e with
  | Log _ _ => true
  | _ => false
  end.

Definition is_submission (e : effect) : bool :=
  match e with
  | RpcSendRawTransaction _ => true
  | _ => false
  end.

(** The number of transactions sent to the destination chain. *)
Definition submissions (tr : list effect) : nat :=
  length (List.filter is_submission tr).

(** A world every field of which is empty, to run a method in and read its
    result and effects off. *)
Definition blank (replies : list node_reply) : World :=
  {| files := ∅; write_ok := false; write_tears := false; node := replies;
     oracle := fun _ => RequestFails; trace := [] |}.

(** The result and the effects of [process_event], which the world has no
    part in. *)
Definition validated (self : EventProcessor) (event : Event)
  : outcome (option PreparedTx) * list effect :=
  let (res, w) := process_event self event (blank []) in (res, trace w).

(** The result and the effects of [broadcast] against the answers [r]. *)
Definition broadcast_against (self : TransactionBroadcaster) (tx_data : PreparedTx)
    (r : node_reply) : outcome (option string) * list effect :=
  let (res, w) := broadcast self tx_data (blank [r]) in (res, trace w).

(* ===================================================================== *)
(** ** Notions the statements use *)
(* ===================================================================== *)

(** The object after [mark_as_processed] has appended [h]. *)
Definition appended (self : StateDB) (h : string) : StateDB :=
  {| filepath := filepath self; processed_hashes := processed_hashes self ++ [h] |}.

(** The world after a write of [self]'s file that failed. *)
Definition failed_write (self : StateDB) (w : World) : World :=
  if write_tears w then write_file (filepath self) Garbage w else w.

(** A new instance over the file [self] was saved to. *)
Definition reopened (self : StateDB) (w : World) : outcome StateDB * World :=
  StateDB_init (filepath self) w.

(** The file holds what the object holds in memory. *)
Definition in_step (self : StateDB) (w : World) : Prop :=
  files w !! filepath self = Some (JsonObject (Some (processed_hashes self))).

(** A receipt that does not say success, or none within the 120 seconds. *)
Definition failed_or_timeout (r : node_reply) : Prop :=
  match wait_for_transaction_receipt r with
  | Some receipt => status receipt <> 1
  | None => True
  end.

Definition is_http (e : effect) : bool :=
  match e with
  | HttpGet _ => true
  | _ => false
  end.

(** What the loop does with an event it finds too recent: a log line, and on
    to the next event. *)
Definition skipped (self : BridgeContractListener) (H : Z) (w : World)
  : outcome BridgeContractListener * World :=
  (Ret self, extend w [Log INFO (TooRecent H)]).

(** An event with everything [process_event] asks for. *)
Definition valid_for (self : EventProcessor) (event : Event) : Prop :=
  destinationChainId (args event) = Some (destination_chain_id self) /\
  truthy_str (recipient (args event)) = true /\
  truthy_int (amount (args event)) = true.

Definition processor (db : StateDB) (chain_id : Z) : EventProcessor :=
  {| state_db := db; destination_chain_id := chain_id |}.

(** The pipeline run twice on one event. *)
Definition pipeline_twice (self : BridgeContractListener) (event : Event)
  : M BridgeContractListener :=
  self1 <- relay self event ;;
  relay self1 event.

(** The number of entries the list holds for [h]. *)
Definition entries (h : string) (hashes : list string) : nat :=
  length (List.filter (String.eqb h) hashes).

(** Was a transaction for the source hash [h] sent to the destination node? *)
Definition sent_for (h : string) (tr : list effect) : bool :=
  existsb (fun e => match e with
                    | RpcSendRawTransaction tx => String.eqb (hex (mint_sourceTxHash tx)) h
                    | _ => false
                    end) tr.

(** The store holds no entry for [h], and nothing was sent for it. *)
Definition untouched (h : string) (self : BridgeContractListener) (w : World) : Prop :=
  (h ∉ stored self) /\ sent_for h (trace w) = false.

(** The events a pass of the loop gets to see. *)
Definition delivered (p : poll) : list Event :=
  match p with
  | Polled _ events => events
  | PollBlockNotFound _ | PollFails => []
  end.

(* ===================================================================== *)
(** ** Values to run the program on *)
(* ===================================================================== *)

Definition STATE_FILE : string := "processed_events_db.json".

(** The deposit of the specification's scenario: transaction [0xaa] in block
    100, 50 tokens for chain 137. *)
Definition deposit : Event :=
  {| transactionHash := [xaa];
     blockNumber := Some 100;
     args := {| sender := Some "0xS"; recipient := Some "0xR"; amount := Some 50;
                destinationChainId := Some 137; nonce := Some 1 |} |}.

(** The same deposit addressed to chain 1. *)
Definition deposit_for_chain_1 : Event :=
  {| transactionHash := [xaa];
     blockNumber := Some 100;
     args := {| sender := Some "0xS"; recipient := Some "0xR"; amount := Some 50;
                destinationChainId := Some 1; nonce := Some 1 |} |}.

(** The same deposit reported for block 0. *)
Definition deposit_in_block_0 : Event :=
  {| transactionHash := [xaa];
     blockNumber := Some 0;
     args := args deposit |}.

(** The same deposit without a block number. *)
Definition deposit_without_block : Event :=
  {| transactionHash := [xaa];
     blockNumber := None;
     args := args deposit |}.

Definition store_of (hashes : list string) : StateDB :=
  {| filepath := STATE_FILE; processed_hashes := hashes |}.

Definition relayer (simulate : bool) : TransactionBroadcaster :=
  {| account_address := "0xRelayer"; private_key := "k"; simulate_only := simulate |}.

(** A listener for chain 137 with the defaults of [__init__]: a poll every
    10 seconds, 6 confirmations. *)
Definition listener_with (simulate : bool) (hashes : list string) : BridgeContractListener :=
  {| dest_broadcaster := relayer simulate;
     event_processor := {| state_db := store_of hashes; destination_chain_id := 137 |};
     poll_interval := 10;
     confirmation_blocks := 6 |}.

(** A node that accepts the transaction and answers the receipt [receipt]; it
    suggests 30 gwei. *)
Definition node_answering (receipt : option Receipt) : node_reply :=
  {| get_transaction_count := Some 7; encode_call := true;
     gas_price := Some 30000000000; build_transaction := true;
     sign_transaction := Some [x01]; send_raw_transaction := Some [x01];
     wait_for_transaction_receipt := receipt |}.

Definition confirmed : node_reply :=
  node_answering (Some {| status := 1; receipt_blockNumber := 9 |}).
Definition reverted : node_reply :=
  node_answering (Some {| status := 0; receipt_blockNumber := 9 |}).
Definition timed_out : node_reply := node_answering None.

(** A world with the given state file (if any) and node answers, and a gas
    station that quotes 50 gwei. *)
Definition world_with (state_file : option file) (writable : bool)
    (replies : list node_reply) : World :=
  {| files := match state_file with
              | Some f => {[ STATE_FILE := f ]}
              | None => ∅
              end;
     write_ok := writable;
     write_tears := false;
     node := replies;
     oracle := fun _ => GasStation (Gwei 50 0);
     trace := [] |}.

Definition prepared_deposit : PreparedTx :=
  {| tx_recipient := Some "0xR"; tx_amount := Some 50;
     source_tx_hash := [xaa]; original_event := deposit |}.

Definition gas_station_url : string := "https://gasstation.polygon.technology/v2".

(* ===================================================================== *)
(** ** The claims that fail, as the specification words them *)
(* ===================================================================== *)

(** C4 as the specification has it: a state file that exists but cannot be
    read, or does not parse, stops the start-up. *)
Definition startup_fatal_as_stated (path : string) (w : World) : Prop :=
  files w !! path = Some Unreadable \/ files w !! path = Some Garbage ->
  exists e w', StateDB_init path w = (Raise e, w').

(** C9 as the specification has it: once [mark_as_processed] has returned, a
    new instance over the same file holds the hash. *)
Definition durable_as_stated (self : StateDB) (h : string) (w : World) : Prop :=
  forall self' w', mark_as_processed self h w = (Ret self', w') ->
  exists fresh w'', reopened self w' = (Ret fresh, w'') /\ is_processed fresh h = true.

(** C3 as the specification has it, for 6 confirmations: an event of block
    [H] is skipped while the latest block is below [H + 6]. *)
Definition gate_as_stated (self : BridgeContractListener) (latest_block : Z)
    (event : Event) (w : World) : Prop :=
  forall H, blockNumber event = Some H ->
  confirmation_blocks self = 6 ->
  latest_block < H + 6 ->
  loop_body self latest_block event w = skipped self H w.

(** C5 as the specification has it: whatever the two stores hold, the result
    for an event is the same. *)
Definition store_free_as_stated (chain_id : Z) (event : Event) (w : World) : Prop :=
  forall db1 db2,
  fst (process_event (processor db1 chain_id) event w)
  = fst (process_event (processor db2 chain_id) event w).

(** C1 as the specification has it: after the two runs the store holds one
    entry for the event's hash, and at most one transaction was sent. *)
Definition idempotent_as_stated (self : BridgeContractListener) (event : Event)
    (w : World) : Prop :=
  exists self2 w2,
    pipeline_twice self event w = (Ret self2, w2) /\
    entries (hex (transactionHash event)) (stored self2) = 1%nat /\
    (submissions (trace w2) <= submissions (trace w) + 1)%nat.

(** C7 as the specification has it: when the gas station answers with a
    price, that is the price of the transaction sent. *)
Definition oracle_preferred_as_stated (self : TransactionBroadcaster) (api_url : string)
    (tx_data : PreparedTx) (w : World) : Prop :=
  forall price, fst (get_gas_price_from_api self api_url w) = Ret (Some price) ->
  forall tx, In (RpcSendRawTransaction tx) (trace (snd (broadcast self tx_data w))) ->
  tx_gasPrice tx = price.

(** C8 as the specification has it: an event for another chain is turned
    away by the destination check: [process_event] returns [None] and logs
    that the event is for a different chain. *)
Definition wrong_destination_as_stated (self : EventProcessor) (event : Event)
    (w : World) : Prop :=
  destinationChainId (args event) <> Some (destination_chain_id self) ->
  exists log,
    process_event self event w = (Ret None, extend w log) /\
    In (Log INFO (DifferentChain (hex (transactionHash event)))) log.

(* ===================================================================== *)
(** ** ChainConnector *)
(* ===================================================================== *)

(** How one attempt of [connect] goes at the endpoint. *)
Inductive dial :=
| ProviderRaises      (* [Web3(Web3.HTTPProvider(url))] raises; [self.web3] keeps its value *)
| MiddlewareRaises    (* [self.web3] is assigned, then [middleware_onion.inject] raises *)
| NotConnected        (* [is_connected()] is [False] *)
| Connected.          (* [is_connected()] is [True] *)

Record Web3 := { endpoint : string }.

Record ChainConnector := {
  chain_name : string;
  rpc_url : string;
  web3 : option Web3
}.

Inductive connect_msg :=
| ConnectedTo (chain url : string)
| AttemptFailed (attempt max_retries : Z) (chain : string) (delay : Z)
| CouldNotConnect (chain : string) (max_retries : Z).

(** What [connect] does besides changing the object. *)
Inductive connect_effect :=
| ConnectLog (lvl : level) (msg : connect_msg)
| ConnectSleep (seconds : Z).

(** [connect] returns, or raises [ConnectionError]; the object is as the
    call left it in both cases. *)
Inductive connect_result :=
| Returned (self : ChainConnector)
| ConnectionError (self : ChainConnector).

(** The object after [self.web3 = Web3(...)]. *)
Definition with_web3 (self : ChainConnector) : ChainConnector :=
  {| chain_name := chain_name self; rpc_url := rpc_url self;
     web3 := Some {| endpoint := rpc_url self |} |}.

(** The [for attempt in range(max_retries)] loop from [attempt] on, with
    [todo] attempts left, and the two statements after it.  [link] tells how
    each attempt goes. *)
Fixpoint connect_from (self : ChainConnector) (link : Z -> dial)
    (max_retries delay : Z) (attempt : Z) (todo : nat)
  : connect_result * list connect_effect :=
  match todo with
  | O =>
      (ConnectionError self,
       [ConnectLog ERROR (CouldNotConnect (chain_name self) max_retries)])
  | S todo' =>
      let failed (self' : ChainConnector) :=
        let (res, effects) :=
          connect_from self' link max_retries delay (attempt + 1) todo' in
        (res,
         ConnectLog WARNING
           (AttemptFailed (attempt + 1) max_retries (chain_name self) delay)
           :: ConnectSleep delay :: effects) in
      match link attempt with
      | Connected =>
          (Returned (with_web3 self),
           [ConnectLog INFO (ConnectedTo (chain_name self) (rpc_url self))])
      | NotConnected | MiddlewareRaises => failed (with_web3 self)
      | ProviderRaises => failed self
      end
  end.

Definition connect (self : ChainConnector) (link : Z -> dial) (max_retries delay : Z)
  : connect_result * list connect_effect :=
  connect_from self link max_retries delay 0 (Z.to_nat max_retries).

(** [ChainConnector.__init__], with the defaults of [connect]: 3 attempts,
    5 seconds after each failure. *)
Definition ChainConnector_init (name url : string) (link : Z -> dial)
  : connect_result * list connect_effect :=
  connect {| chain_name := name; rpc_url := url; web3 := None |} link 3 5.

Definition is_connect_sleep (e : connect_effect) : bool :=
  match e with
  | ConnectSleep _ => true
  | ConnectLog _ _ => false
  end.



(* ===================================================================== *)
(** ** Notions the further statements use *)
(* ===================================================================== *)

Definition is_sleep (e : effect) : bool :=
  match e with
  | Sleep _ => true
  | _ => false
  end.


Definition is_create_filter (e : effect) : bool :=
  match e with
  | CreateFilter => true
  | _ => false
  end.

(** A call to the destination node. *)
Definition is_node_call (e : effect) : bool :=
  match e with
  | RpcGetTransactionCount _ | RpcGasPrice
  | RpcSendRawTransaction _ | RpcWaitForReceipt _ _ => true
  | _ => false
  end.

(** What the pipeline of one event can do: log, and call the node. *)
Definition is_relay_effect (e : effect) : bool := is_log e || is_node_call e.

(** The transaction [broadcast] builds for [tx_data] at nonce [n] and gas
    price [g]. *)
Definition payload_for (self : TransactionBroadcaster) (tx_data : PreparedTx) (n g : Z)
  : TxPayload :=
  {| mint_recipient := tx_recipient tx_data;
     mint_amount := tx_amount tx_data;
     mint_sourceTxHash := source_tx_hash tx_data;
     tx_from := account_address self;
     tx_nonce := n;
     tx_gas := 200000;
     tx_gasPrice := g |}.

(** Everything before the send went well at the node. *)
Definition ready_to_send (r : node_reply) : bool :=
  match get_transaction_count r, gas_price r, sign_transaction r with
  | Some _, Some _, Some _ => encode_call r && build_transaction r
  | _, _, _ => false
  end.

(** The dictionary [process_event] prepares for an event it accepts. *)
Definition prepared_from (event : Event) : PreparedTx :=
  {| tx_recipient := recipient (args event);
     tx_amount := amount (args event);
     source_tx_hash := transactionHash event;
     original_event := event |}.



(** The sleep that ends a pass: the poll interval after a poll that
    succeeded, twice the interval after one that failed. *)
Definition pass_sleep (self : BridgeContractListener) (p : poll) : Z :=
  match p with
  | Polled _ _ => poll_interval self
  | PollBlockNotFound _ | PollFails => poll_interval self * 2
  end.

(** Did [create_filter] go through wherever a poll of [polls] called for it? *)
Definition filters_recreated (polls : list poll) : bool :=
  forallb (fun p => match p with
                    | PollBlockNotFound false => false
                    | _ => true
                    end) polls.


(** What [run] leaves alone in the listener. *)
Definition same_configuration (a b : BridgeContractListener) : Prop :=
  dest_broadcaster a = dest_broadcaster b /\
  destination_chain_id (event_processor a) = destination_chain_id (event_processor b) /\
  filepath (state_db (event_processor a)) = filepath (state_db (event_processor b)) /\
  poll_interval a = poll_interval b /\
  confirmation_blocks a = confirmation_blocks b.

(** A new instance over the object's file would be the object again. *)
Definition restart_safe (self : StateDB) (w : World) : Prop :=
  fst (StateDB_init (filepath self) w) = Ret self.



(** Another deposit, of transaction [0xbb]. *)
Definition other_deposit : Event :=
  {| transactionHash := [xbb];
     blockNumber := Some 101;
     args := {| sender := Some "0xS"; recipient := Some "0xT"; amount := Some 8;
                destinationChainId := Some 137; nonce := Some 2 |} |}.

(** The scenario's deposit with an amount of zero. *)
Definition deposit_of_nothing : Event :=
  {| transactionHash := [xaa];
     blockNumber := Some 100;
     args := {| sender := Some "0xS"; recipient := Some "0xR"; amount := Some 0;
                destinationChainId := Some 137; nonce := Some 1 |} |}.

(** A link that is down for the first [k] attempts and up from then on. *)
Definition up_after (k : Z) : Z -> dial :=
  fun attempt => if attempt <? k then NotConnected else Connected.

(* ===================================================================== *)
(** ** Basic facts *)
(* ===================================================================== *)

Lemma emit_extend (e : effect) (w : World) : emit e w = extend w [e].
Proof. reflexivity. Qed.

Lemma extend_extend (w : World) (a b : list effect) :
  extend (extend w a) b = extend w (a ++ b).
Proof. unfold extend; simpl. by rewrite <- app_assoc. Qed.

Lemma drop_reply_extend (w : World) (tr : list effect) :
  drop_reply (extend w tr) = extend (drop_reply w) tr.
Proof. reflexivity. Qed.

Lemma write_file_extend (path : string) (f : file) (w : World) (tr : list effect) :
  write_file path f (extend w tr) = extend (write_file path f w) tr.
Proof. reflexivity. Qed.

Lemma submissions_app (a b : list effect) :
  submissions (a ++ b) = (submissions a + submissions b)%nat.
Proof. unfold submissions. by rewrite List.filter_app, length_app. Qed.

Lemma submissions_logs (tr : list effect) :
  forallb is_log tr = true -> submissions tr = 0%nat.
Proof.
  unfold submissions. induction tr as [|[] tr IH]; simpl; done.
Qed.

Lemma hex_truthy (b : HexBytes) : truthy_hash (Some (hex b)) = true.
Proof. reflexivity. Qed.

(** Unfolds the monad and the small methods, leaving the case analysis. *)
Ltac unfold_py :=
  unfold bind, ret, raise, try_except, logging, perform, answer, succeeds,
    next_reply, any_exception in *.

(** Splits on what the innermost [match] or [if] of the goal inspects. *)
Ltac split_py :=
  repeat match goal with
    | |- context [match ?x with _ => _ end] =>
        lazymatch x with
        | context [match _ with _ => _ end] => fail
        | _ => idtac
        end;
        let E := fresh "E" in destruct x eqn:E; simpl in *; try discriminate
    end.

(** Brings a world reached by [emit]s into the form [extend w tr]. *)
Ltac normal_world :=
  rewrite ?emit_extend, ?drop_reply_extend, ?write_file_extend, ?extend_extend;
  simpl app.

(** *** process_event *)

Lemma process_event_frame (self : EventProcessor) (event : Event) (w : World) :
  process_event self event w
  = (fst (validated self event), extend w (snd (validated self event))).
Proof.
  unfold validated, process_event. unfold_py.
  split_py; by normal_world.
Qed.

Lemma process_event_returns (self : EventProcessor) (event : Event) :
  exists o, fst (validated self event) = Ret o.
Proof.
  unfold validated, process_event. unfold_py.
  split_py; by eexists.
Qed.

Lemma process_event_only_logs (self : EventProcessor) (event : Event) :
  forallb is_log (snd (validated self event)) = true.
Proof.
  unfold validated, process_event. unfold_py.
  split_py; done.
Qed.

(** What [process_event] hands on is the event's own hash, and it does so
    only for a hash the store does not hold. *)
Lemma process_event_some (self : EventProcessor) (event : Event) (tx : PreparedTx) :
  fst (validated self event) = Ret (Some tx) ->
  source_tx_hash tx = transactionHash event /\
  is_processed (state_db self) (hex (transactionHash event)) = false /\
  destinationChainId (args event) = Some (destination_chain_id self) /\
  truthy_str (tx_recipient tx) = true /\ truthy_int (tx_amount tx) = true.
Proof.
  unfold validated, process_event. unfold_py.
  destruct (is_processed _ _) eqn:Hp; simpl; [done|].
  destruct (bool_decide _) eqn:Hd; simpl; [|done].
  apply bool_decide_eq_true in Hd.
  destruct (truthy_str _) eqn:Hr, (truthy_int _) eqn:Ha; simpl; try done.
  by intros [= <-].
Qed.

Lemma process_event_stored (self : EventProcessor) (event : Event) :
  is_processed (state_db self) (hex (transactionHash event)) = true ->
  validated self event
  = (Ret None, [Log WARNING (AlreadyProcessed (hex (transactionHash event)))]).
Proof.
  intros Hp. unfold validated, process_event. unfold_py. by rewrite Hp.
Qed.

(** What [process_event] hands on is the dictionary prepared from the event,
    and it does so only for an event that is not stored and has all it asks
    for. *)
Lemma validated_some (self : EventProcessor) (event : Event) (tx : PreparedTx) :
  fst (validated self event) = Ret (Some tx) ->
  is_processed (state_db self) (hex (transactionHash event)) = false /\
  valid_for self event /\
  tx = prepared_from event.
Proof.
  intros Hv. pose proof (process_event_some _ _ _ Hv) as (_ & Hp & Hd & _).
  revert Hv. unfold validated, process_event. unfold_py. rewrite Hp; simpl.
  rewrite bool_decide_eq_true_2 by done; simpl.
  destruct (truthy_str _) eqn:Hr, (truthy_int _) eqn:Ha; simpl; try done.
  by intros [= <-].
Qed.

(** *** broadcast *)

Lemma broadcast_frame (self : TransactionBroadcaster) (tx_data : PreparedTx) (w : World) :
  broadcast self tx_data w
  = (fst (broadcast_against self tx_data (hd unreachable (node w))),
     extend (drop_reply w) (snd (broadcast_against self tx_data (hd unreachable (node w))))).
Proof.
  unfold broadcast_against, broadcast. unfold_py. simpl.
  destruct (hd unreachable (node w)) as [cnt enc gp bld sgn snt rcp]; simpl.
  split_py; by normal_world.
Qed.

(** [broadcast] lets no exception out. *)
Lemma broadcast_returns (self : TransactionBroadcaster) (tx_data : PreparedTx)
    (r : node_reply) :
  exists o, fst (broadcast_against self tx_data r) = Ret o.
Proof.
  unfold broadcast_against, broadcast. unfold_py. simpl.
  destruct r as [cnt enc gp bld sgn snt rcp]; simpl.
  split_py; by eexists.
Qed.

Lemma broadcast_submits_once (self : TransactionBroadcaster) (tx_data : PreparedTx)
    (r : node_reply) :
  (submissions (snd (broadcast_against self tx_data r)) <= 1)%nat.
Proof.
  unfold broadcast_against, broadcast. unfold_py. simpl.
  destruct r as [cnt enc gp bld sgn snt rcp]; simpl.
  split_py; unfold submissions; simpl; lia.
Qed.

(** When [broadcast] returns a hash: the signed transaction's in simulate
    mode, the sent transaction's after a receipt of status 1 otherwise. *)
Lemma broadcast_some (self : TransactionBroadcaster) (tx_data : PreparedTx)
    (r : node_reply) (h : string) :
  fst (broadcast_against self tx_data r) = Ret (Some h) ->
  truthy_hash (Some h) = true /\
  if simulate_only self
  then exists signed, sign_transaction r = Some signed /\ h = hex signed
  else exists sent receipt,
      send_raw_transaction r = Some sent /\
      wait_for_transaction_receipt r = Some receipt /\
      status receipt = 1 /\ h = hex sent.
Proof.
  unfold broadcast_against, broadcast. unfold_py. simpl.
  destruct r as [cnt enc gp bld sgn snt rcp]; simpl.
  split_py; intros [= <-]; (split; [done|]).
  - by eexists.
  - eexists _, _. repeat split; try done. by apply Z.eqb_eq.
Qed.

Lemma broadcast_failed (self : TransactionBroadcaster) (tx_data : PreparedTx)
    (r : node_reply) :
  simulate_only self = false -> failed_or_timeout r ->
  fst (broadcast_against self tx_data r) = Ret None.
Proof.
  unfold failed_or_timeout, broadcast_against, broadcast. unfold_py. simpl.
  destruct r as [cnt enc gp bld sgn snt rcp]; simpl. intros -> Hf.
  split_py; try done.
  match goal with H : (_ =? _) = true |- _ => by apply Z.eqb_eq in H end.
Qed.

(** The price a sent transaction carries is the node's, and no request
    leaves for a gas station. *)
Lemma broadcast_gas_price (self : TransactionBroadcaster) (tx_data : PreparedTx)
    (r : node_reply) :
  (forall tx, In (RpcSendRawTransaction tx) (snd (broadcast_against self tx_data r)) ->
              gas_price r = Some (tx_gasPrice tx)) /\
  existsb is_http (snd (broadcast_against self tx_data r)) = false.
Proof.
  unfold broadcast_against, broadcast. unfold_py. simpl.
  destruct r as [cnt enc gp bld sgn snt rcp]; simpl.
  split_py; (split; [|done]); intros tx Hin; simpl in Hin;
    repeat (destruct Hin as [Hin|Hin]; try discriminate); try done;
    by injection Hin as <-.
Qed.

(** *** StateDB *)

Lemma is_processed_elem (self : StateDB) (h : string) :
  is_processed self h = true <-> h ∈ processed_hashes self.
Proof. unfold is_processed. by rewrite bool_decide_eq_true. Qed.

Lemma is_processed_not_elem (self : StateDB) (h : string) :
  is_processed self h = false <-> h ∉ processed_hashes self.
Proof. unfold is_processed. by rewrite bool_decide_eq_false. Qed.

(** The five ways [_load] can go. *)
Lemma _load_cases (path : string) (w : World) :
  _load path w =
  match files w !! path with
  | None => (Ret [], w)
  | Some Unreadable | Some Garbage => (Ret [], extend w [Log ERROR (LoadFailed path)])
  | Some (JsonObject (Some hashes)) => (Ret hashes, w)
  | Some (JsonObject None) => (Ret [], w)
  | Some NotUtf8 => (Raise UnicodeDecodeError, w)
  | Some JsonOther => (Raise AttributeError, w)
  end.
Proof.
  unfold _load. destruct (files w !! path) as [[| | |[hs|]|]|]; reflexivity.
Qed.

(** The three ways [mark_as_processed] can go; it returns in each. *)
Lemma mark_as_processed_cases (self : StateDB) (h : string) (w : World) :
  mark_as_processed self h w =
  if is_processed self h then (Ret self, w)
  else if write_ok w then
    (Ret (appended self h),
     extend (write_file (filepath self)
               (JsonObject (Some (processed_hashes (appended self h)))) w)
       [Log INFO (MarkedProcessed h)])
  else
    (Ret (appended self h),
     extend (failed_write self w)
       [Log ERROR (SaveFailed (filepath self)); Log INFO (MarkedProcessed h)]).
Proof.
  unfold mark_as_processed, _save, dump_state, failed_write. unfold_py.
  destruct (is_processed self h); simpl; [done|].
  destruct (write_ok w); simpl; [by normal_world|].
  destruct (write_tears w); simpl; by normal_world.
Qed.

Lemma failed_write_keeps (self : StateDB) (w : World) :
  trace (failed_write self w) = trace w /\
  write_ok (failed_write self w) = write_ok w /\
  write_tears (failed_write self w) = write_tears w /\
  node (failed_write self w) = node w /\
  oracle (failed_write self w) = oracle w.
Proof. unfold failed_write. destruct (write_tears w) eqn:E; simpl; by rewrite ?E. Qed.

Lemma failed_write_trace (self : StateDB) (w : World) :
  trace (failed_write self w) = trace w.
Proof. apply failed_write_keeps. Qed.

Lemma mark_as_processed_NoDup (self : StateDB) (h : string) (w : World) :
  NoDup (processed_hashes self) ->
  forall self' w', mark_as_processed self h w = (Ret self', w') ->
  NoDup (processed_hashes self').
Proof.
  intros Hnd self' w'. rewrite mark_as_processed_cases.
  destruct (is_processed self h) eqn:Hp.
  - by intros [= <- <-].
  - apply is_processed_not_elem in Hp.
    assert (NoDup (processed_hashes (appended self h))).
    { simpl. apply NoDup_app. split; [done|]. split; [|apply NoDup_singleton].
      intros x Hx Hx'. apply list_elem_of_singleton in Hx'. by subst. }
    destruct (write_ok w); by intros [= <- <-].
Qed.

(** *** relay *)

(** The pipeline spelt out along its three stages. *)
Lemma relay_cases (self : BridgeContractListener) (event : Event) (w : World) :
  relay self event w =
  let log := snd (validated (event_processor self) event) in
  match fst (validated (event_processor self) event) with
  | Ret (Some tx) =>
      let r := hd unreachable (node w) in
      let sent := snd (broadcast_against (dest_broadcaster self) tx r) in
      let w2 := extend (drop_reply w) (log ++ sent) in
      match fst (broadcast_against (dest_broadcaster self) tx r) with
      | Ret (Some _) =>
          match mark_as_processed (state_db (event_processor self))
                  (hex (transactionHash event)) w2 with
          | (Ret db, w3) => (Ret (with_state_db self db), w3)
          | (Raise e, w3) => (Raise e, w3)
          end
      | Ret None => (Ret self, w2)
      | Raise e => (Raise e, w2)
      end
  | Ret None => (Ret self, extend w log)
  | Raise e => (Raise e, extend w log)
  end.
Proof.
  unfold relay, bind at 1. rewrite process_event_frame.
  destruct (fst (validated _ _)) as [[tx|]|] eqn:Hv; simpl; try done.
  apply process_event_some in Hv as (Hh & _).
  unfold bind at 1. rewrite broadcast_frame. simpl.
  destruct (fst (broadcast_against _ _ _)) as [[h|]|] eqn:Hb; simpl;
    normal_world; try done.
  apply broadcast_some in Hb as [Ht _]. simpl in Ht. rewrite Ht, Hh.
  unfold bind, ret. by destruct (mark_as_processed _ _ _) as [[]].
Qed.

(* ===================================================================== *)
(** ** The replay store at startup and on record (C4, C9) *)
(* ===================================================================== *)

(** C4, counterexample: with a state file that is no JSON the store is
    constructed, empty, and nothing is raised. *)
Lemma startup_fatal_counterexample :
  StateDB_init STATE_FILE (world_with (Some Garbage) true [])
  = (Ret (store_of []),
     extend (world_with (Some Garbage) true []) [Log ERROR (LoadFailed STATE_FILE)])
  /\ ~ startup_fatal_as_stated STATE_FILE (world_with (Some Garbage) true []).
Proof.
  assert (H : StateDB_init STATE_FILE (world_with (Some Garbage) true [])
              = (Ret (store_of []),
                 extend (world_with (Some Garbage) true [])
                   [Log ERROR (LoadFailed STATE_FILE)])) by reflexivity.
  split; [exact H|].
  intros Hc. destruct Hc as (e & w' & He); [by right|].
  rewrite H in He. discriminate He.
Qed.

(** C4, amended: the store starts empty when the state file does not exist,
    and also when opening it raises [IOError] or parsing it raises
    [JSONDecodeError]; the failure is logged and nothing is raised. *)
Theorem startup_empty_on_read_failure (path : string) (w : World) :
  files w !! path = None \/
  files w !! path = Some Unreadable \/ files w !! path = Some Garbage ->
  StateDB_init path w
  = (Ret {| filepath := path; processed_hashes := [] |},
     if bool_decide (files w !! path = None) then w
     else extend w [Log ERROR (LoadFailed path)]).
Proof.
  intros H. unfold StateDB_init, bind. rewrite _load_cases.
  destruct H as [H|[H|H]]; rewrite H; simpl; reflexivity.
Qed.

Lemma startup_empty_on_read_failure_witness :
  files (world_with (Some Unreadable) true []) !! STATE_FILE = Some Unreadable /\
  StateDB_init STATE_FILE (world_with (Some Unreadable) true [])
  = (Ret (store_of []),
     extend (world_with (Some Unreadable) true []) [Log ERROR (LoadFailed STATE_FILE)]).
Proof.
  split; [reflexivity|].
  apply (startup_empty_on_read_failure STATE_FILE (world_with (Some Unreadable) true [])).
  right; left; reflexivity.
Defined.

(** The one read that does stop the start-up: a file holding JSON that is
    no object, on which [data.get] raises outside the handled exceptions. *)
Lemma startup_raises_on_non_object (path : string) (w : World) :
  files w !! path = Some JsonOther ->
  StateDB_init path w = (Raise AttributeError, w).
Proof.
  intros H. unfold StateDB_init, bind. rewrite _load_cases. by rewrite H.
Qed.

(** C9, counterexample: the file cannot be written; [mark_as_processed]
    logs the failure and returns, and a new instance does not hold the hash. *)
Lemma durable_counterexample :
  (exists self' w',
      mark_as_processed (store_of []) "0xaa" (world_with None false []) = (Ret self', w')
      /\ is_processed self' "0xaa" = true
      /\ reopened (store_of []) w' = (Ret (store_of []), w'))
  /\ ~ durable_as_stated (store_of []) "0xaa" (world_with None false []).
Proof.
  split.
  - exists (store_of ["0xaa"]),
      (extend (world_with None false [])
         [Log ERROR (SaveFailed STATE_FILE); Log INFO (MarkedProcessed "0xaa")]).
    split; [reflexivity|]. split; reflexivity.
  - intros Hc.
    destruct (Hc (store_of ["0xaa"])
                (extend (world_with None false [])
                   [Log ERROR (SaveFailed STATE_FILE); Log INFO (MarkedProcessed "0xaa")])
                eq_refl) as (fresh & w'' & Hr & Hp).
    vm_compute in Hr. injection Hr as <- <-. vm_compute in Hp. discriminate Hp.
Qed.

(** C9, amended: when the state file can be written (and, for a hash already
    in memory, holds the list in memory), after [mark_as_processed] the file
    holds the list in memory, a new instance over it holds the hash, a hash
    that was present leaves object and world as they were, and a list without
    duplicates stays so. *)
Theorem record_durable (self : StateDB) (h : string) (w : World) :
  write_ok w = true ->
  (is_processed self h = true -> in_step self w) ->
  exists self' w',
    mark_as_processed self h w = (Ret self', w') /\
    in_step self' w' /\
    reopened self w' = (Ret self', w') /\
    is_processed self' h = true /\
    (is_processed self h = true -> self' = self /\ w' = w) /\
    (NoDup (processed_hashes self) -> NoDup (processed_hashes self')).
Proof.
  intros Hw Hsync.
  destruct (mark_as_processed self h w) as [res w'] eqn:Hm.
  pose proof Hm as Hm'. rewrite mark_as_processed_cases in Hm'.
  destruct (is_processed self h) eqn:Hp.
  - injection Hm' as <- <-. specialize (Hsync eq_refl).
    exists self, w. repeat split; try done.
    unfold reopened, StateDB_init, bind. rewrite _load_cases.
    unfold in_step in Hsync. rewrite Hsync. by destruct self.
  - rewrite Hw in Hm'. injection Hm' as <- <-.
    eexists _, _. split; [reflexivity|].
    assert (Hstep : in_step (appended self h)
              (extend (write_file (filepath self)
                         (JsonObject (Some (processed_hashes (appended self h)))) w)
                 [Log INFO (MarkedProcessed h)])).
    { unfold in_step; simpl. apply lookup_insert_eq. }
    repeat split; try done.
    + unfold reopened, StateDB_init, bind. rewrite _load_cases.
      unfold in_step in Hstep. simpl in Hstep |- *. by rewrite Hstep.
    + apply is_processed_elem. simpl. apply elem_of_app. right. by apply list_elem_of_singleton.
    + intros Hnd. by eapply mark_as_processed_NoDup.
Qed.

Lemma record_durable_witness :
  write_ok (world_with None true []) = true /\
  exists self' w',
    mark_as_processed (store_of []) "0xaa" (world_with None true []) = (Ret self', w') /\
    in_step self' w' /\
    reopened (store_of []) w' = (Ret self', w') /\
    is_processed self' "0xaa" = true /\
    (is_processed (store_of []) "0xaa" = true ->
     self' = store_of [] /\ w' = world_with None true []) /\
    (NoDup (processed_hashes (store_of [])) -> NoDup (processed_hashes self')).
Proof.
  split; [reflexivity|].
  apply (record_durable (store_of []) "0xaa" (world_with None true []));
    [reflexivity | intros H; discriminate H].
Defined.

(* ===================================================================== *)
(** ** The confirmation gate (C3, C10) *)
(* ===================================================================== *)

(** C10: an event whose [blockNumber] is absent, [None] or zero is handed to
    [process_event] in the same pass, whatever the latest block and the
    number of confirmations asked for. *)
Theorem gate_bypassed_without_block_number
    (self : BridgeContractListener) (latest_block : Z) (event : Event)
    (rest : list Event) (w : World) :
  blockNumber event = None \/ blockNumber event = Some 0 ->
  too_recent self latest_block event = false /\
  loop_body self latest_block event w = relay self event w /\
  for_events self latest_block (event :: rest) w
  = (self' <- relay self event ;; for_events self' latest_block rest) w.
Proof.
  intros H.
  assert (Ht : too_recent self latest_block event = false).
  { unfold too_recent. by destruct H as [-> | ->]. }
  split; [exact Ht|].
  assert (Hb : loop_body self latest_block event w = relay self event w).
  { unfold loop_body. by rewrite Ht. }
  split; [exact Hb|].
  cbn [for_events]. unfold bind. by rewrite Hb.
Qed.

Lemma gate_bypassed_without_block_number_witness :
  (blockNumber deposit_without_block = None \/
   blockNumber deposit_without_block = Some 0) /\
  too_recent (listener_with true []) 0 deposit_without_block = false /\
  loop_body (listener_with true []) 0 deposit_without_block
    (world_with None true [confirmed])
  = relay (listener_with true []) deposit_without_block
      (world_with None true [confirmed]) /\
  for_events (listener_with true []) 0 [deposit_without_block]
    (world_with None true [confirmed])
  = (self' <- relay (listener_with true []) deposit_without_block ;;
     for_events self' 0 []) (world_with None true [confirmed]).
Proof.
  split; [left; reflexivity|].
  apply (gate_bypassed_without_block_number (listener_with true []) 0
           deposit_without_block [] (world_with None true [confirmed])).
  left; reflexivity.
Defined.

(** C3, counterexample: an event reported for block 0 is relayed while the
    latest block is 3: it is processed, signed and recorded. *)
Lemma gate_counterexample :
  loop_body (listener_with true []) 3 deposit_in_block_0 (world_with None true [confirmed])
  = relay (listener_with true []) deposit_in_block_0 (world_with None true [confirmed])
  /\ stored (match fst (loop_body (listener_with true []) 3 deposit_in_block_0
                          (world_with None true [confirmed])) with
             | Ret self' => self'
             | Raise _ => listener_with true []
             end) = ["0xaa"]
  /\ ~ gate_as_stated (listener_with true []) 3 deposit_in_block_0
         (world_with None true [confirmed]).
Proof.
  split; [reflexivity|]. split; [reflexivity|].
  intros Hc. specialize (Hc 0 eq_refl eq_refl eq_refl).
  apply (f_equal (fun p => length (trace (snd p)))) in Hc.
  vm_compute in Hc. discriminate Hc.
Qed.

Lemma process_event_valid (self : EventProcessor) (event : Event) (w : World) :
  valid_for self event ->
  is_processed (state_db self) (hex (transactionHash event)) = false ->
  let tx := {| tx_recipient := recipient (args event);
               tx_amount := amount (args event);
               source_tx_hash := transactionHash event;
               original_event := event |} in
  process_event self event w
  = (Ret (Some tx),
     extend w [Log INFO (ProcessingNew (hex (transactionHash event)));
               Log INFO (Prepared tx)]).
Proof.
  intros (Hd & Hr & Ha) Hp. unfold process_event. unfold_py.
  rewrite Hp; simpl. rewrite bool_decide_eq_true_2 by done; simpl.
  rewrite Hr, Ha; simpl. by normal_world.
Qed.

(** C3, amended: for an event whose block number [H] is not zero, the loop
    skips it exactly while [latest_block - H] is below the number of
    confirmations, and hands it to the pipeline from then on; with 6
    confirmations, skipped below [H + 6], relayed from [H + 6] on, and an
    event with valid content that is not in the store is then broadcast. *)
Theorem confirmation_gate (self : BridgeContractListener) (latest_block H : Z)
    (event : Event) (w : World) :
  blockNumber event = Some H -> H <> 0 ->
  (too_recent self latest_block event = false
   <-> latest_block - H >= confirmation_blocks self) /\
  (latest_block - H < confirmation_blocks self ->
   loop_body self latest_block event w = skipped self H w) /\
  (latest_block - H >= confirmation_blocks self ->
   loop_body self latest_block event w = relay self event w) /\
  (confirmation_blocks self = 6 ->
   (latest_block < H + 6 -> loop_body self latest_block event w = skipped self H w) /\
   (latest_block >= H + 6 ->
    loop_body self latest_block event w = relay self event w /\
    (valid_for (event_processor self) event ->
     is_processed (state_db (event_processor self)) (hex (transactionHash event)) = false ->
     exists tx, process_event (event_processor self) event w
                = (Ret (Some tx),
                   extend w [Log INFO (ProcessingNew (hex (transactionHash event)));
                             Log INFO (Prepared tx)])))).
Proof.
  intros Hb Hz.
  assert (Ht : too_recent self latest_block event
               = (latest_block - H <? confirmation_blocks self)).
  { unfold too_recent. rewrite Hb; simpl.
    destruct (Z.eqb_spec H 0); [done|]. reflexivity. }
  assert (Hskip : latest_block - H < confirmation_blocks self ->
                  loop_body self latest_block event w = skipped self H w).
  { intros Hlt. unfold loop_body. rewrite Ht.
    apply Z.ltb_lt in Hlt. rewrite Hlt, Hb. reflexivity. }
  assert (Hrelay : latest_block - H >= confirmation_blocks self ->
                   loop_body self latest_block event w = relay self event w).
  { intros Hge. unfold loop_body. rewrite Ht.
    apply Z.ge_le, Z.ltb_ge in Hge. by rewrite Hge. }
  split; [|split; [exact Hskip|split; [exact Hrelay|]]].
  - rewrite Ht, Z.ltb_ge. lia.
  - intros H6. rewrite H6 in Hskip, Hrelay. split.
    + intros Hlt. apply Hskip. lia.
    + intros Hge. split; [apply Hrelay; lia|].
      intros Hv Hp. eexists. by apply process_event_valid.
Qed.

Lemma confirmation_gate_witness :
  blockNumber deposit = Some 100 /\ 100 <> 0 /\
  loop_body (listener_with true []) 105 deposit (world_with None true [confirmed])
  = skipped (listener_with true []) 100 (world_with None true [confirmed]) /\
  loop_body (listener_with true []) 106 deposit (world_with None true [confirmed])
  = relay (listener_with true []) deposit (world_with None true [confirmed]).
Proof.
  split; [reflexivity|]. split; [lia|].
  pose proof (confirmation_gate (listener_with true []) 105 100 deposit
                (world_with None true [confirmed]) eq_refl ltac:(lia)) as (_ & _ & _ & H5).
  pose proof (confirmation_gate (listener_with true []) 106 100 deposit
                (world_with None true [confirmed]) eq_refl ltac:(lia)) as (_ & _ & _ & H6).
  split.
  - apply (H5 eq_refl). lia.
  - apply (H6 eq_refl). lia.
Defined.

(* ===================================================================== *)
(** ** Validation (C5, C8) *)
(* ===================================================================== *)

(** C5, counterexample: the scenario's deposit is accepted over an empty
    store and turned away over a store that holds its hash. *)
Lemma store_free_counterexample :
  (exists tx, fst (process_event (processor (store_of []) 137) deposit
                     (world_with None true [])) = Ret (Some tx))
  /\ fst (process_event (processor (store_of ["0xaa"]) 137) deposit
            (world_with None true [])) = Ret None
  /\ ~ store_free_as_stated 137 deposit (world_with None true []).
Proof.
  split; [eexists; reflexivity|]. split; [reflexivity|].
  intros Hc. specialize (Hc (store_of []) (store_of ["0xaa"])).
  vm_compute in Hc. discriminate Hc.
Qed.

(** C5, amended: [process_event] returns, changes nothing but the log, and
    reads the store only to ask whether it holds the event's hash: over two
    stores that answer this alike, result and log are the same. *)
Theorem validation_reads_store_for_replay_only
    (chain_id : Z) (db1 db2 : StateDB) (event : Event) (w : World) :
  is_processed db1 (hex (transactionHash event))
  = is_processed db2 (hex (transactionHash event)) ->
  process_event (processor db1 chain_id) event w
  = process_event (processor db2 chain_id) event w /\
  exists o log,
    process_event (processor db1 chain_id) event w = (Ret o, extend w log) /\
    forallb is_log log = true.
Proof.
  intros Hp. split.
  - unfold process_event; simpl. by rewrite Hp.
  - destruct (process_event_returns (processor db1 chain_id) event) as [o Ho].
    exists o, (snd (validated (processor db1 chain_id) event)).
    split; [by rewrite process_event_frame, Ho|apply process_event_only_logs].
Qed.

Lemma validation_reads_store_for_replay_only_witness :
  is_processed (store_of []) (hex (transactionHash deposit))
  = is_processed (store_of ["0xbb"]) (hex (transactionHash deposit)) /\
  process_event (processor (store_of []) 137) deposit (world_with None true [])
  = process_event (processor (store_of ["0xbb"]) 137) deposit (world_with None true []).
Proof.
  split; [reflexivity|].
  apply (validation_reads_store_for_replay_only 137 (store_of []) (store_of ["0xbb"])
           deposit (world_with None true [])).
  reflexivity.
Defined.

(** C8, counterexample: an event for another chain whose hash the store
    holds is turned away by the replay check, which comes first; the
    destination check is not reached and nothing is logged about the chain. *)
Lemma wrong_destination_counterexample :
  destinationChainId (args deposit_for_chain_1)
  <> Some (destination_chain_id (processor (store_of ["0xaa"]) 137))
  /\ process_event (processor (store_of ["0xaa"]) 137) deposit_for_chain_1
       (world_with None true [])
     = (Ret None,
        extend (world_with None true []) [Log WARNING (AlreadyProcessed "0xaa")])
  /\ ~ wrong_destination_as_stated (processor (store_of ["0xaa"]) 137)
         deposit_for_chain_1 (world_with None true []).
Proof.
  split; [discriminate|]. split; [reflexivity|].
  intros Hc. destruct Hc as (log & Hp & Hin); [discriminate|].
  apply (f_equal (fun out => trace (snd out))) in Hp. vm_compute in Hp.
  subst log. destruct Hin as [Hin|[]]. discriminate Hin.
Qed.

(** C8, amended: an event for another chain is turned away by
    [process_event], which returns [None]: by the replay check when the
    store holds the event's hash, by the destination check otherwise, and
    never by the check for missing arguments.  The loop leaves the listener,
    the state file and the node's answers as they were and makes no call to
    the node, whatever the latest block and the number of confirmations. *)
Theorem wrong_destination_rejected (self : BridgeContractListener) (latest_block : Z)
    (event : Event) (w : World) :
  destinationChainId (args event) <> Some (destination_chain_id (event_processor self)) ->
  let h := hex (transactionHash event) in
  process_event (event_processor self) event w
  = (Ret None,
     extend w (if is_processed (state_db (event_processor self)) h
               then [Log WARNING (AlreadyProcessed h)]
               else [Log INFO (ProcessingNew h); Log INFO (DifferentChain h)])) /\
  exists log,
    loop_body self latest_block event w = (Ret self, extend w log) /\
    forallb is_log log = true /\
    ~ In (Log ERROR (MissingArguments h)) log.
Proof.
  intros Hd h.
  assert (Hv : validated (event_processor self) event
               = (Ret None,
                  if is_processed (state_db (event_processor self)) h
                  then [Log WARNING (AlreadyProcessed h)]
                  else [Log INFO (ProcessingNew h); Log INFO (DifferentChain h)])).
  { unfold validated, process_event. unfold_py. fold h.
    destruct (is_processed _ _); simpl; [done|].
    by rewrite bool_decide_eq_false_2. }
  split; [by rewrite process_event_frame, Hv|].
  unfold loop_body. destruct (too_recent _ _ _).
  - eexists. split; [reflexivity|]. split; [done|].
    simpl. intros [Hin|[]]. discriminate Hin.
  - rewrite relay_cases, Hv; simpl. eexists. split; [reflexivity|].
    destruct (is_processed _ _); (split; [done|]); simpl; intros Hin;
      repeat (destruct Hin as [Hin|Hin]; try discriminate Hin); done.
Qed.

Lemma wrong_destination_rejected_witness :
  destinationChainId (args deposit_for_chain_1)
  <> Some (destination_chain_id (event_processor (listener_with false []))) /\
  process_event (event_processor (listener_with false [])) deposit_for_chain_1
    (world_with None true [confirmed])
  = (Ret None,
     extend (world_with None true [confirmed])
       [Log INFO (ProcessingNew "0xaa"); Log INFO (DifferentChain "0xaa")]).
Proof.
  split; [discriminate|].
  apply (wrong_destination_rejected (listener_with false []) 200 deposit_for_chain_1
           (world_with None true [confirmed])).
  discriminate.
Defined.

(* ===================================================================== *)
(** ** The commit point (C2) *)
(* ===================================================================== *)

(** [relay] returns, and it changes the listener only through
    [mark_as_processed], reached after a [broadcast] that returned a hash. *)
Lemma relay_returns (self : BridgeContractListener) (event : Event) (w : World) :
  exists self' w',
    relay self event w = (Ret self', w') /\
    ((self' = self /\ files w' = files w) \/
     (exists tx h w1 w2,
        process_event (event_processor self) event w = (Ret (Some tx), w1) /\
        broadcast (dest_broadcaster self) tx w1 = (Ret (Some h), w2) /\
        fst (broadcast_against (dest_broadcaster self) tx (hd unreachable (node w)))
        = Ret (Some h) /\
        mark_as_processed (state_db (event_processor self))
          (hex (transactionHash event)) w2
        = (Ret (appended (state_db (event_processor self)) (hex (transactionHash event))),
           w') /\
        self' = with_state_db self
                  (appended (state_db (event_processor self))
                     (hex (transactionHash event))))).
Proof.
  rewrite relay_cases. cbv zeta.
  destruct (process_event_returns (event_processor self) event) as [o Ho].
  rewrite Ho. destruct o as [tx|]; [|by eexists _, _; split; [|left]].
  destruct (broadcast_returns (dest_broadcaster self) tx (hd unreachable (node w)))
    as [b Hb].
  rewrite Hb. destruct b as [h|]; [|by eexists _, _; split; [|left]].
  pose proof (process_event_some _ _ _ Ho) as (_ & Hp & _).
  rewrite mark_as_processed_cases, Hp.
  set (w2 := extend (drop_reply w) _).
  assert (Hpe : process_event (event_processor self) event w
                = (Ret (Some tx), extend w (snd (validated (event_processor self) event))))
    by (by rewrite process_event_frame, Ho).
  assert (Hbr : broadcast (dest_broadcaster self) tx
                  (extend w (snd (validated (event_processor self) event)))
                = (Ret (Some h), w2)).
  { rewrite broadcast_frame; simpl. rewrite Hb. unfold w2. by normal_world. }
  destruct (write_ok w2) eqn:Hw; eexists _, _; (split; [reflexivity|]); right;
    exists tx, h, (extend w (snd (validated (event_processor self) event))), w2;
    rewrite mark_as_processed_cases, Hp, Hw; done.
Qed.

(** C2: in live mode a receipt whose status is not 1, or no receipt within
    the 120 seconds, leaves the store as it was, in memory and on file;
    [mark_as_processed] is reached only after [broadcast] has returned a
    hash, which in simulate mode is the hash of the signed transaction and in
    live mode the hash of the sent one, confirmed by a receipt of status 1. *)
Theorem commit_point (self : BridgeContractListener) (event : Event) (w : World) :
  let r := hd unreachable (node w) in
  let h0 := hex (transactionHash event) in
  exists self' w',
    relay self event w = (Ret self', w') /\
    (simulate_only (dest_broadcaster self) = false -> failed_or_timeout r ->
     self' = self /\ files w' = files w) /\
    (stored self' <> stored self \/ files w' <> files w ->
     exists tx h w1 w2,
       process_event (event_processor self) event w = (Ret (Some tx), w1) /\
       broadcast (dest_broadcaster self) tx w1 = (Ret (Some h), w2) /\
       mark_as_processed (state_db (event_processor self)) h0 w2
       = (Ret (state_db (event_processor self')), w') /\
       stored self' = (stored self ++ [h0])%list /\
       if simulate_only (dest_broadcaster self)
       then exists signed, sign_transaction r = Some signed /\ h = hex signed
       else exists sent receipt,
           send_raw_transaction r = Some sent /\
           wait_for_transaction_receipt r = Some receipt /\
           status receipt = 1 /\ h = hex sent).
Proof.
  intros r h0.
  destruct (relay_returns self event w) as (self' & w' & Hr & Hcase).
  exists self', w'. split; [exact Hr|].
  destruct Hcase as [[-> Hf]|(tx & h & w1 & w2 & Hp & Hb & Hba & Hm & ->)].
  - split; [done|]. intros [Hs|Hs]; by destruct Hs.
  - split.
    + intros Hlive Hfail.
      rewrite (broadcast_failed _ _ _ Hlive Hfail) in Hba. discriminate Hba.
    + intros _. exists tx, h, w1, w2. repeat split; try done.
      by apply broadcast_some in Hba as [_ Hba].
Qed.

(** The two failures of the specification, run: the receipt reports a
    revert, then no receipt comes; neither time is anything recorded. *)
Example relay_reverted_not_recorded :
  let out := relay (listener_with false []) deposit (world_with None true [reverted]) in
  fst out = Ret (listener_with false []) /\
  files (snd out) !! STATE_FILE = None /\ submissions (trace (snd out)) = 1%nat.
Proof. vm_compute. repeat split. Qed.

Example relay_timeout_not_recorded :
  let out := relay (listener_with false []) deposit (world_with None true [timed_out]) in
  fst out = Ret (listener_with false []) /\
  files (snd out) !! STATE_FILE = None /\ submissions (trace (snd out)) = 1%nat.
Proof. vm_compute. repeat split. Qed.

Example relay_confirmed_recorded :
  let out := relay (listener_with false []) deposit (world_with None true [confirmed]) in
  fst out = Ret (listener_with false ["0xaa"]) /\
  files (snd out) !! STATE_FILE = Some (JsonObject (Some ["0xaa"])) /\
  submissions (trace (snd out)) = 1%nat.
Proof. vm_compute. repeat split. Qed.

Example relay_simulated_recorded :
  let out := relay (listener_with true []) deposit (world_with None true [timed_out]) in
  fst out = Ret (listener_with true ["0xaa"]) /\
  files (snd out) !! STATE_FILE = Some (JsonObject (Some ["0xaa"])) /\
  submissions (trace (snd out)) = 0%nat.
Proof. vm_compute. repeat split. Qed.

(* ===================================================================== *)
(** ** Running the pipeline twice (C1) *)
(* ===================================================================== *)

(** C1, counterexample: in live mode both transactions are sent and both
    receipts report a revert; two transactions were sent and the store holds
    no entry. *)
Lemma idempotent_counterexample :
  (let out := pipeline_twice (listener_with false []) deposit
                (world_with None true [reverted; reverted]) in
   fst out = Ret (listener_with false []) /\
   submissions (trace (snd out)) = 2%nat)
  /\ ~ idempotent_as_stated (listener_with false []) deposit
         (world_with None true [reverted; reverted]).
Proof.
  split; [by vm_compute|].
  intros (self2 & w2 & Hr & He & _).
  apply (f_equal fst) in Hr. vm_compute in Hr. injection Hr as <-.
  vm_compute in He. discriminate He.
Qed.

(** With the event's hash in the store, the pipeline stops at
    [process_event]: one warning is logged. *)
Lemma relay_stored (self : BridgeContractListener) (event : Event) (w : World) :
  hex (transactionHash event) ∈ stored self ->
  process_event (event_processor self) event w
  = (Ret None, extend w [Log WARNING (AlreadyProcessed (hex (transactionHash event)))]) /\
  relay self event w
  = (Ret self, extend w [Log WARNING (AlreadyProcessed (hex (transactionHash event)))]).
Proof.
  intros Hin. apply is_processed_elem in Hin.
  pose proof (process_event_stored _ _ Hin) as Hv.
  split; [by rewrite process_event_frame, Hv|].
  by rewrite relay_cases, Hv.
Qed.

(** One run adds at most the event's hash to the store, and only if it was
    not there; it sends at most one transaction. *)
Lemma relay_step (self : BridgeContractListener) (event : Event) (w : World) :
  let h := hex (transactionHash event) in
  exists self' w',
    relay self event w = (Ret self', w') /\
    (stored self' = stored self \/
     ((h ∉ stored self) /\ stored self' = (stored self ++ [h])%list)) /\
    (submissions (trace w') <= submissions (trace w) + 1)%nat.
Proof.
  intros h. rewrite relay_cases. cbv zeta.
  pose proof (submissions_logs _ (process_event_only_logs (event_processor self) event))
    as Hlog.
  destruct (process_event_returns (event_processor self) event) as [o Ho].
  rewrite Ho. destruct o as [tx|].
  2:{ eexists _, _. split; [reflexivity|]. split; [by left|].
      simpl. rewrite submissions_app. lia. }
  pose proof (broadcast_submits_once (dest_broadcaster self) tx (hd unreachable (node w)))
    as Hsub.
  destruct (broadcast_returns (dest_broadcaster self) tx (hd unreachable (node w)))
    as [b Hb].
  rewrite Hb.
  set (w2 := extend (drop_reply w) _).
  assert (Hw2 : (submissions (trace w2) <= submissions (trace w) + 1)%nat).
  { unfold w2; simpl. rewrite !submissions_app. lia. }
  destruct b as [hb|]; [|by eexists _, _; split; [|split; [left|]]].
  pose proof (process_event_some _ _ _ Ho) as (_ & Hp & _).
  rewrite mark_as_processed_cases, Hp.
  apply is_processed_not_elem in Hp.
  destruct (write_ok w2); eexists _, _; (split; [reflexivity|]);
    (split; [by right|]); simpl; rewrite ?failed_write_trace, submissions_app; simpl;
    unfold submissions at 2; simpl; simpl in Hw2; lia.
Qed.

Lemma entries_app (h : string) (a b : list string) :
  entries h (a ++ b) = (entries h a + entries h b)%nat.
Proof. unfold entries. by rewrite List.filter_app, length_app. Qed.

Lemma entries_absent (h : string) (l : list string) : h ∉ l -> entries h l = 0%nat.
Proof.
  unfold entries. induction l as [|x l IH]; simpl; [done|].
  intros Hn. apply not_elem_of_cons in Hn as [Hx Hl].
  destruct (String.eqb_spec h x); [done|]. by apply IH.
Qed.

Lemma entries_present (h : string) (l : list string) : h ∈ l -> (1 <= entries h l)%nat.
Proof.
  unfold entries. induction l as [|x l IH]; simpl; [by intros ?%elem_of_nil|].
  intros [->|Hl]%elem_of_cons.
  - rewrite String.eqb_refl; simpl. lia.
  - destruct (String.eqb h x); simpl; [lia|by apply IH].
Qed.

(** In live mode, once everything before the send went well, [broadcast]
    sends one transaction. *)
Lemma broadcast_live_submits (self : TransactionBroadcaster) (tx_data : PreparedTx)
    (r : node_reply) :
  simulate_only self = false ->
  ready_to_send r = true ->
  submissions (snd (broadcast_against self tx_data r)) = 1%nat.
Proof.
  unfold broadcast_against, broadcast, ready_to_send. unfold_py. simpl.
  destruct r as [cnt enc gp bld sgn snt rcp]; simpl. intros ->.
  destruct cnt, gp, sgn, enc, bld; simpl; try discriminate. intros _.
  split_py; reflexivity.
Qed.

(** The pipeline on an event [process_event] accepts and [broadcast] returns
    a hash for: the hash of the event, which the store did not hold, is
    recorded. *)
Lemma relay_records (self : BridgeContractListener) (event : Event) (w w0 w0' : World)
    (tx : PreparedTx) (hb : string) :
  process_event (event_processor self) event w = (Ret (Some tx), w0) ->
  broadcast (dest_broadcaster self) tx w0 = (Ret (Some hb), w0') ->
  (hex (transactionHash event) ∉ stored self) /\
  exists w',
    relay self event w
    = (Ret (with_state_db self
              (appended (state_db (event_processor self)) (hex (transactionHash event)))),
       w').
Proof.
  intros Hp Hb.
  assert (Hv : fst (validated (event_processor self) event) = Ret (Some tx))
    by (rewrite process_event_frame in Hp; by injection Hp as -> _).
  pose proof (process_event_some _ _ _ Hv) as (Hh & Hn & _).
  assert (Ht : truthy_hash (Some hb) = true).
  { rewrite broadcast_frame in Hb. injection Hb as Hb _.
    by apply broadcast_some in Hb as [Ht _]. }
  split; [by apply is_processed_not_elem|].
  unfold relay, bind at 1. rewrite Hp. unfold bind at 1. rewrite Hb, Ht, Hh.
  unfold bind, ret. rewrite mark_as_processed_cases, Hn.
  destruct (write_ok w0'); by eexists.
Qed.

(** The pipeline on an event that is not stored, has all [process_event]
    asks for and meets, in live mode, a node that lets [broadcast] reach the
    send: one transaction is sent. *)
Lemma relay_submits_when_ready (self : BridgeContractListener) (event : Event)
    (w : World) :
  (hex (transactionHash event) ∉ stored self) ->
  valid_for (event_processor self) event ->
  simulate_only (dest_broadcaster self) = false ->
  ready_to_send (hd unreachable (node w)) = true ->
  exists self' w',
    relay self event w = (Ret self', w') /\
    submissions (trace w') = S (submissions (trace w)).
Proof.
  intros Hn Hv Hlive Hready. apply is_processed_not_elem in Hn.
  pose proof (process_event_valid _ _ w Hv Hn) as Hp. cbv zeta in Hp.
  assert (Hval : fst (validated (event_processor self) event)
                 = Ret (Some (prepared_from event)))
    by (rewrite process_event_frame in Hp; by injection Hp as -> _).
  pose proof (submissions_logs _ (process_event_only_logs (event_processor self) event))
    as Hlog.
  pose proof (broadcast_live_submits (dest_broadcaster self) (prepared_from event)
                _ Hlive Hready) as Hone.
  rewrite relay_cases. cbv zeta. rewrite Hval.
  destruct (broadcast_returns (dest_broadcaster self) (prepared_from event)
              (hd unreachable (node w))) as [b Hb].
  rewrite Hb. destruct b as [hb|].
  - rewrite mark_as_processed_cases, Hn.
    destruct (write_ok _); eexists _, _; (split; [reflexivity|]); simpl;
      rewrite ?failed_write_trace; simpl; rewrite !submissions_app, Hlog, Hone;
      unfold submissions; simpl; lia.
  - eexists _, _. split; [reflexivity|]. simpl.
    rewrite !submissions_app, Hlog, Hone. lia.
Qed.

(** C1, amended: the two runs return.  The first run records the event's
    hash exactly when [process_event] accepts the event and [broadcast]
    returns a hash (the hash is in the store after it exactly then, or if it
    was there before); then the second run stops at [process_event], which
    returns [None], so that [broadcast] is not called, and the two runs
    together send at most one transaction and leave one entry.  When the
    first run does not record, it leaves the listener as it was, and the
    second run is a first run again: for an event that has all
    [process_event] asks for it sends a transaction, in live mode, whenever
    the node lets [broadcast] reach the send.  In every case at most one
    entry is added for the event's hash, only if the store held none, and
    each run sends at most one transaction. *)
Theorem pipeline_twice_idempotent (self : BridgeContractListener) (event : Event)
    (w : World) :
  let h := hex (transactionHash event) in
  exists self1 w1 self2 w2,
    relay self event w = (Ret self1, w1) /\
    relay self1 event w1 = (Ret self2, w2) /\
    pipeline_twice self event w = (Ret self2, w2) /\
    (h ∈ stored self1 <->
     h ∈ stored self \/
     exists tx hb w0 w0',
       process_event (event_processor self) event w = (Ret (Some tx), w0) /\
       broadcast (dest_broadcaster self) tx w0 = (Ret (Some hb), w0')) /\
    ((h ∉ stored self) -> h ∈ stored self1 -> stored self1 = (stored self ++ [h])%list) /\
    ((h ∉ stored self1) -> self1 = self) /\
    (stored self2 = stored self \/
     ((h ∉ stored self) /\ stored self2 = (stored self ++ [h])%list)) /\
    ((entries h (stored self) <= 1)%nat -> (entries h (stored self2) <= 1)%nat) /\
    (submissions (trace w1) <= submissions (trace w) + 1)%nat /\
    (submissions (trace w2) <= submissions (trace w1) + 1)%nat /\
    (h ∈ stored self1 ->
     process_event (event_processor self1) event w1
     = (Ret None, extend w1 [Log WARNING (AlreadyProcessed h)]) /\
     self2 = self1 /\
     w2 = extend w1 [Log WARNING (AlreadyProcessed h)] /\
     (submissions (trace w2) <= submissions (trace w) + 1)%nat /\
     ((entries h (stored self) <= 1)%nat -> entries h (stored self2) = 1%nat)) /\
    (h ∈ stored self ->
     process_event (event_processor self) event w
     = (Ret None, extend w [Log WARNING (AlreadyProcessed h)]) /\
     self1 = self /\
     w1 = extend w [Log WARNING (AlreadyProcessed h)]) /\
    ((h ∉ stored self1) ->
     valid_for (event_processor self) event ->
     simulate_only (dest_broadcaster self) = false ->
     ready_to_send (hd unreachable (node w1)) = true ->
     submissions (trace w2) = S (submissions (trace w1))).
Proof.
  intros h.
  destruct (relay_step self event w) as (self1 & w1 & Hr1 & Hs1 & Hn1).
  destruct (relay_step self1 event w1) as (self2 & w2 & Hr2 & Hs2 & Hn2).
  fold h in Hs1, Hs2.
  exists self1, w1, self2, w2.
  assert (Hstored : h ∈ stored self1 ->
            process_event (event_processor self1) event w1
            = (Ret None, extend w1 [Log WARNING (AlreadyProcessed h)]) /\
            self2 = self1 /\ w2 = extend w1 [Log WARNING (AlreadyProcessed h)]).
  { intros Hin. destruct (relay_stored self1 event w1 Hin) as [Hp Hr].
    rewrite Hr in Hr2. injection Hr2 as <- <-. done. }
  assert (Hgrow : stored self2 = stored self \/
            ((h ∉ stored self) /\ stored self2 = (stored self ++ [h])%list)).
  { destruct Hs1 as [E1|[Hn E1]].
    - rewrite E1 in Hs2. exact Hs2.
    - assert (Hin : h ∈ stored self1)
        by (rewrite E1; apply elem_of_app; right; by apply list_elem_of_singleton).
      destruct (Hstored Hin) as (_ & -> & _). by right. }
  assert (Hle : (entries h (stored self) <= 1)%nat -> (entries h (stored self2) <= 1)%nat).
  { intros H1. destruct Hgrow as [->|[Hn ->]]; [done|].
    rewrite entries_app, (entries_absent _ _ Hn). unfold entries; simpl.
    rewrite String.eqb_refl; simpl. lia. }
  assert (Hkept : (h ∉ stored self1) -> self1 = self).
  { intros Hn. destruct (relay_returns self event w) as (s & w' & Hr & Hcase).
    rewrite Hr1 in Hr. injection Hr as <- <-.
    destruct Hcase as [[-> _]|(tx & hb & w0 & w0' & _ & _ & _ & _ & ->)]; [done|].
    destruct Hn. unfold stored; simpl. apply elem_of_app. right.
    by apply list_elem_of_singleton. }
  split; [exact Hr1|]. split; [exact Hr2|].
  split; [unfold pipeline_twice, bind; by rewrite Hr1|].
  split.
  { split.
    - intros Hin. destruct (relay_returns self event w) as (s & w' & Hr & Hcase).
      rewrite Hr1 in Hr. injection Hr as <- <-.
      destruct Hcase as [[-> _]|(tx & hb & w0 & w0' & Hp & Hb & _)]; [by left|].
      right. by exists tx, hb, w0, w0'.
    - intros [Hin|(tx & hb & w0 & w0' & Hp & Hb)].
      + destruct (relay_stored self event w Hin) as [_ Hr].
        rewrite Hr in Hr1. by injection Hr1 as <- <-.
      + destruct (relay_records self event w w0 w0' tx hb Hp Hb) as [_ [w' Hr]].
        rewrite Hr in Hr1. injection Hr1 as <- <-.
        unfold stored; simpl. apply elem_of_app. right.
        by apply list_elem_of_singleton. }
  split.
  { intros Hn Hin. destruct Hs1 as [E1|[_ E1]]; [|done].
    rewrite E1 in Hin. done. }
  split; [exact Hkept|].
  split; [exact Hgrow|]. split; [exact Hle|].
  split; [exact Hn1|]. split; [exact Hn2|]. split; [|split].
  - intros Hin. destruct (Hstored Hin) as (Hp & E2 & Ew).
    split; [exact Hp|]. split; [exact E2|]. split; [exact Ew|]. split.
    + rewrite Ew; simpl. rewrite submissions_app. unfold submissions at 2; simpl. lia.
    + intros H1. specialize (Hle H1).
      assert (1 <= entries h (stored self2))%nat
        by (apply entries_present; by rewrite E2).
      lia.
  - intros Hin. destruct (relay_stored self event w Hin) as [Hp Hr].
    rewrite Hr in Hr1. injection Hr1 as <- <-. done.
  - intros Hn Hv Hlive Hready. specialize (Hkept Hn). subst self1.
    destruct (relay_submits_when_ready self event w1 Hn Hv Hlive Hready)
      as (s & w' & Hr & Hsub).
    rewrite Hr2 in Hr. by injection Hr as <- <-.
Qed.

(** The first transaction is sent and reverts; the second run sends again. *)
Example pipeline_twice_resubmits :
  let out := pipeline_twice (listener_with false []) deposit
               (world_with None true [reverted; confirmed]) in
  fst out = Ret (listener_with false ["0xaa"]) /\
  submissions (trace (snd out)) = 2%nat.
Proof. vm_compute. repeat split. Qed.

(** The first transaction is sent and reverts; the second run finds the node
    unreachable and sends nothing. *)
Example pipeline_twice_node_gone :
  let out := pipeline_twice (listener_with false []) deposit
               (world_with None true [reverted]) in
  fst out = Ret (listener_with false []) /\
  submissions (trace (snd out)) = 1%nat.
Proof. vm_compute. repeat split. Qed.

(** The scenario of the specification: the deposit is confirmed on the first
    run, and the second run sends nothing. *)
Example pipeline_twice_confirmed :
  let out := pipeline_twice (listener_with false []) deposit
               (world_with None true [confirmed; confirmed]) in
  fst out = Ret (listener_with false ["0xaa"]) /\
  submissions (trace (snd out)) = 1%nat /\
  node (snd out) = [confirmed].
Proof. vm_compute. repeat split. Qed.

(** The same deposit after a restart, with [0xaa] loaded from the file:
    nothing is sent. *)
Example replay_after_restart :
  let out := relay (listener_with false ["0xaa"]) deposit
               (world_with (Some (JsonObject (Some ["0xaa"]))) true [confirmed]) in
  fst out = Ret (listener_with false ["0xaa"]) /\
  trace (snd out) = [Log WARNING (AlreadyProcessed "0xaa")] /\
  node (snd out) = [confirmed].
Proof. vm_compute. repeat split. Qed.

(* ===================================================================== *)
(** ** The gas price (C7) *)
(* ===================================================================== *)

(** The ways [get_gas_price_from_api] can go. *)
Lemma get_gas_price_from_api_cases (self : TransactionBroadcaster) (api_url : string)
    (w : World) :
  get_gas_price_from_api self api_url w =
  match oracle w api_url with
  | RequestFails => (Ret None, extend w [HttpGet api_url; Log ERROR GasApiFailed])
  | BodyMalformed => (Raise AttributeError, extend w [HttpGet api_url])
  | GasStation NoFee => (Ret None, extend w [HttpGet api_url])
  | GasStation (Gwei mantissa places) =>
      (if (mantissa <? 0) || (MAX_WEI * 10 ^ Z.of_nat places <? mantissa * 1000000000)
       then Raise ValueError
       else Ret (Some (mantissa * 1000000000 / 10 ^ Z.of_nat places)),
       extend w [HttpGet api_url])
  | GasStation Infinite => (Raise ValueError, extend w [HttpGet api_url])
  | GasStation NotDecimal => (Raise InvalidOperation, extend w [HttpGet api_url])
  | GasStation WrongType => (Raise TypeError, extend w [HttpGet api_url])
  end.
Proof.
  unfold get_gas_price_from_api, fetch_max_fee, to_wei_gwei. unfold_py. simpl.
  destruct (oracle w api_url) as [| |[|m places| | |]]; simpl; try done.
  - by normal_world.
  - by destruct (_ || _).
Qed.

(** C7, counterexample: the gas station quotes 50 gwei and the node suggests
    30; the transaction is sent at 30 gwei. *)
Lemma oracle_preferred_counterexample :
  fst (get_gas_price_from_api (relayer false) gas_station_url
         (world_with None true [confirmed])) = Ret (Some 50000000000)
  /\ (exists tx,
        In (RpcSendRawTransaction tx)
          (trace (snd (broadcast (relayer false) prepared_deposit
                         (world_with None true [confirmed]))))
        /\ tx_gasPrice tx = 30000000000)
  /\ ~ oracle_preferred_as_stated (relayer false) gas_station_url prepared_deposit
         (world_with None true [confirmed]).
Proof.
  set (tx := {| mint_recipient := Some "0xR"; mint_amount := Some 50;
                mint_sourceTxHash := [xaa]; tx_from := "0xRelayer"; tx_nonce := 7;
                tx_gas := 200000; tx_gasPrice := 30000000000 |}).
  assert (Hin : In (RpcSendRawTransaction tx)
                  (trace (snd (broadcast (relayer false) prepared_deposit
                                 (world_with None true [confirmed]))))).
  { vm_compute. do 3 right. by left. }
  split; [reflexivity|]. split; [by exists tx|].
  intros Hc. specialize (Hc 50000000000 eq_refl tx Hin). discriminate Hc.
Qed.

(** C7, amended: [broadcast] returns, and whatever the gas station would
    answer, its result and effects are the same, no request leaves for the
    station, and a transaction sent carries the gas price the destination
    node suggests and a gas limit of 200000. *)
Theorem gas_price_from_node (self : TransactionBroadcaster) (tx_data : PreparedTx)
    (w : World) (o : string -> oracle_reply) :
  let r := hd unreachable (node w) in
  exists res sent,
    broadcast self tx_data w = (Ret res, extend (drop_reply w) sent) /\
    broadcast self tx_data (with_oracle o w)
    = (Ret res, extend (drop_reply (with_oracle o w)) sent) /\
    existsb is_http sent = false /\
    forall tx, In (RpcSendRawTransaction tx) sent ->
               gas_price r = Some (tx_gasPrice tx) /\ tx_gas tx = 200000.
Proof.
  intros r.
  destruct (broadcast_returns self tx_data r) as [res Hres].
  exists res, (snd (broadcast_against self tx_data r)).
  rewrite !broadcast_frame. simpl. fold r. rewrite Hres.
  split; [done|]. split; [done|].
  destruct (broadcast_gas_price self tx_data r) as [Hg Hh].
  split; [exact Hh|]. intros tx Hin. split; [by apply Hg|].
  clear -Hin. revert Hin.
  unfold broadcast_against, broadcast. unfold_py. simpl.
  destruct r as [cnt enc gp bld sgn snt rcp]; simpl.
  split_py; intros Hin; simpl in Hin;
    repeat (destruct Hin as [Hin|Hin]; try discriminate); try done;
    by injection Hin as <-.
Qed.

(* ===================================================================== *)
(** ** Events that are not final yet (C6) *)
(* ===================================================================== *)

(** The loop body lets no exception out, so the handlers of [run_once] are
    reached from the poll only. *)
Lemma loop_body_returns (self : BridgeContractListener) (latest_block : Z)
    (event : Event) (w : World) :
  exists self' w', loop_body self latest_block event w = (Ret self', w').
Proof.
  unfold loop_body. destruct (too_recent _ _ _); [by eexists _, _|].
  destruct (relay_returns self event w) as (self' & w' & Hr & _). by eexists _, _.
Qed.

Lemma for_events_returns (events : list Event) (self : BridgeContractListener)
    (latest_block : Z) (w : World) :
  exists self' w', for_events self latest_block events w = (Ret self', w').
Proof.
  revert self w. induction events as [|event rest IH]; intros self w; simpl.
  - by eexists _, _.
  - destruct (loop_body_returns self latest_block event w) as (self1 & w1 & H1).
    unfold bind. rewrite H1. apply IH.
Qed.

(** A pass that delivers one event and finds it too recent changes nothing
    the loop could find the event by later: the listener is the same, and
    the world differs by two log lines. *)
Lemma run_once_defers (self : BridgeContractListener) (latest_block H : Z)
    (event : Event) (rest : list poll) (w : World) :
  blockNumber event = Some H ->
  too_recent self latest_block event = true ->
  run self (Polled latest_block [event] :: rest) w
  = run self rest (extend w [Log INFO (TooRecent H); Sleep (poll_interval self)]).
Proof.
  intros Hb Ht. cbn [run]. unfold bind at 1.
  assert (Hr : run_once self (Polled latest_block [event]) w
               = (Ret self, extend w [Log INFO (TooRecent H); Sleep (poll_interval self)])).
  { unfold run_once, source_poll, for_events, loop_body. unfold_py. simpl.
    rewrite Ht, Hb. simpl. by normal_world. }
  by rewrite Hr.
Qed.

Lemma sent_for_app (h : string) (a b : list effect) :
  sent_for h (a ++ b) = sent_for h a || sent_for h b.
Proof. unfold sent_for. apply existsb_app. Qed.

Lemma sent_for_logs (h : string) (tr : list effect) :
  forallb is_log tr = true -> sent_for h tr = false.
Proof.
  induction tr as [|[] tr IH]; simpl; done.
Qed.

(** What [broadcast] sends is for the hash it was given. *)
Lemma broadcast_sends_own (self : TransactionBroadcaster) (tx_data : PreparedTx)
    (r : node_reply) (h : string) :
  hex (source_tx_hash tx_data) <> h ->
  sent_for h (snd (broadcast_against self tx_data r)) = false.
Proof.
  intros Hne. apply String.eqb_neq in Hne.
  unfold broadcast_against, broadcast. unfold_py. simpl.
  destruct r as [cnt enc gp bld sgn snt rcp]; simpl.
  split_py; simpl; rewrite ?Hne; done.
Qed.

Lemma relay_other (self : BridgeContractListener) (event : Event) (w : World)
    (h : string) :
  hex (transactionHash event) <> h ->
  untouched h self w ->
  exists self' w', relay self event w = (Ret self', w') /\ untouched h self' w'.
Proof.
  intros Hne [Hs Ht]. rewrite relay_cases. cbv zeta.
  pose proof (sent_for_logs h _ (process_event_only_logs (event_processor self) event))
    as Hlog.
  destruct (process_event_returns (event_processor self) event) as [o Ho].
  rewrite Ho. destruct o as [tx|].
  2:{ eexists _, _. split; [reflexivity|]. split; [done|].
      simpl. by rewrite sent_for_app, Ht, Hlog. }
  pose proof (process_event_some _ _ _ Ho) as (Hh & Hp & _).
  assert (Hsent : sent_for h (snd (broadcast_against (dest_broadcaster self) tx
                                      (hd unreachable (node w)))) = false)
    by (apply broadcast_sends_own; by rewrite Hh).
  destruct (broadcast_returns (dest_broadcaster self) tx (hd unreachable (node w)))
    as [b Hb].
  rewrite Hb.
  set (w2 := extend (drop_reply w) _).
  assert (Hw2 : sent_for h (trace w2) = false).
  { unfold w2; simpl. by rewrite !sent_for_app, Ht, Hlog, Hsent. }
  destruct b as [hb|]; [|by eexists _, _].
  rewrite mark_as_processed_cases, Hp.
  assert (Hs' : h ∉ (stored self ++ [hex (transactionHash event)])%list).
  { apply not_elem_of_app. split; [done|].
    intros Hin%list_elem_of_singleton. by apply Hne. }
  destruct (write_ok w2); eexists _, _; (split; [reflexivity|]); (split; [exact Hs'|]);
    simpl; rewrite ?failed_write_trace; simpl; rewrite sent_for_app; simpl in Hw2;
    by rewrite Hw2.
Qed.

Lemma for_events_other (events : list Event) (self : BridgeContractListener)
    (latest_block : Z) (w : World) (h : string) :
  (forall event, event ∈ events -> hex (transactionHash event) <> h) ->
  untouched h self w ->
  exists self' w',
    for_events self latest_block events w = (Ret self', w') /\ untouched h self' w'.
Proof.
  revert self w. induction events as [|event rest IH]; intros self w Hne Hu; simpl.
  - by eexists _, _.
  - assert (exists self1 w1, loop_body self latest_block event w = (Ret self1, w1)
                             /\ untouched h self1 w1) as (self1 & w1 & H1 & Hu1).
    { unfold loop_body. destruct (too_recent _ _ _).
      - eexists _, _. split; [reflexivity|]. destruct Hu as [Hs Ht].
        split; [done|]. simpl. by rewrite sent_for_app, Ht.
      - apply relay_other; [|done]. apply Hne. by left. }
    unfold bind. rewrite H1. apply IH; [|done].
    intros e' He'. apply Hne. by right.
Qed.

Lemma run_once_other (self : BridgeContractListener) (p : poll) (w : World) (h : string) :
  (forall event, event ∈ delivered p -> hex (transactionHash event) <> h) ->
  untouched h self w ->
  exists res w',
    run_once self p w = (res, w') /\
    sent_for h (trace w') = false /\
    forall self', res = Ret self' -> h ∉ stored self'.
Proof.
  intros Hne [Hs Ht]. unfold run_once. destruct p as [latest_block events|[|]|].
  - destruct (for_events_other events self latest_block w h Hne (conj Hs Ht))
      as (self' & w' & Hf & Hs' & Ht').
    unfold_py. simpl. rewrite Hf. eexists _, _. split; [reflexivity|].
    split; [simpl; by rewrite sent_for_app, Ht'|]. by intros ? [= <-].
  - unfold create_filter. unfold_py. simpl. eexists _, _. split; [reflexivity|].
    split; [simpl; by rewrite !sent_for_app, Ht|]. by intros ? [= <-].
  - unfold create_filter. unfold_py. simpl. eexists _, _. split; [reflexivity|].
    split; [simpl; by rewrite !sent_for_app, Ht|]. by intros ? [=].
  - unfold_py. simpl. eexists _, _. split; [reflexivity|].
    split; [simpl; by rewrite !sent_for_app, Ht|]. by intros ? [= <-].
Qed.

(** The loop relays no event that no pass delivers, whichever way it ends. *)
Lemma run_other (polls : list poll) (self : BridgeContractListener) (w : World)
    (h : string) :
  (forall p event, p ∈ polls -> event ∈ delivered p -> hex (transactionHash event) <> h) ->
  untouched h self w ->
  exists res w',
    run self polls w = (res, w') /\
    sent_for h (trace w') = false /\
    forall self', res = Ret self' -> h ∉ stored self'.
Proof.
  revert self w. induction polls as [|p rest IH]; intros self w Hne [Hs Ht]; simpl.
  - eexists _, _. split; [reflexivity|]. split; [done|]. by intros ? [= <-].
  - destruct (run_once_other self p w h) as (res1 & w1 & H1 & Ht1 & Hs1); [|done|].
    { intros event. apply Hne. by left. }
    unfold bind. rewrite H1. destruct res1 as [self1|e].
    + apply IH; [|split; [by apply Hs1|done]].
      intros p' e' Hp'. apply Hne. by right.
    + eexists _, _. split; [reflexivity|]. split; [done|]. by intros ? [=].
Qed.

(** An event found too recent in one pass and delivered in no later pass is
    never relayed, however many passes follow, however far the chain advances
    and whichever way the loop ends: no transaction is sent for it, and its
    hash is not in the store the loop returns with. *)
Lemma deferred_and_not_redelivered (self : BridgeContractListener) (latest_block H : Z)
    (event : Event) (rest : list poll) (w : World) :
  blockNumber event = Some H ->
  too_recent self latest_block event = true ->
  untouched (hex (transactionHash event)) self w ->
  (forall p e, p ∈ rest -> e ∈ delivered p ->
               hex (transactionHash e) <> hex (transactionHash event)) ->
  exists res w',
    run self (Polled latest_block [event] :: rest) w = (res, w') /\
    sent_for (hex (transactionHash event)) (trace w') = false /\
    forall self', res = Ret self' -> hex (transactionHash event) ∉ stored self'.
Proof.
  intros Hb Ht [Hs Hn] Hne. rewrite (run_once_defers _ _ _ _ _ _ Hb Ht).
  apply run_other; [done|]. split; [done|].
  simpl. by rewrite sent_for_app, Hn.
Qed.

(** C6, on the code: the scenario's deposit is delivered when the latest
    block is 100 and found too recent; the filter hands each entry over once,
    so the passes at blocks 106 and 107 have nothing to look at, and the
    deposit is never relayed: no transaction is sent and the store stays
    empty. *)
Theorem deferred_event_is_dropped :
  let out := run (listener_with false [])
               [Polled 100 [deposit]; Polled 106 []; Polled 107 []]
               (world_with None true [confirmed]) in
  fst out = Ret (listener_with false []) /\
  trace (snd out) = [Log INFO (TooRecent 100); Sleep 10; Sleep 10; Sleep 10] /\
  node (snd out) = [confirmed] /\
  files (snd out) !! STATE_FILE = None.
Proof. vm_compute. repeat split. Qed.

(** Had the deposit been handed over again at block 106, it would have been
    relayed. *)
Example redelivered_event_is_relayed :
  let out := run (listener_with false [])
               [Polled 100 [deposit]; Polled 106 [deposit]]
               (world_with None true [confirmed]) in
  fst out = Ret (listener_with false ["0xaa"]) /\
  submissions (trace (snd out)) = 1%nat.
Proof. vm_compute. repeat split. Qed.

(* ===================================================================== *)
(** ** Further properties: process_event *)
(* ===================================================================== *)

(** X1: [process_event] hands on a transaction exactly for an event whose
    hash the store does not hold, whose destination is the configured chain
    and whose recipient and amount are present and not empty or zero; the
    transaction carries the event's recipient, amount and hash. *)
Theorem process_event_accepts (self : EventProcessor) (event : Event) (w : World)
    (tx : PreparedTx) :
  fst (process_event self event w) = Ret (Some tx) <->
  is_processed (state_db self) (hex (transactionHash event)) = false /\
  valid_for self event /\
  tx = prepared_from event.
Proof.
  rewrite process_event_frame; simpl. split.
  - intros Hv. pose proof (process_event_some _ _ _ Hv) as (_ & Hp & Hd & _).
    revert Hv. unfold validated, process_event. unfold_py. rewrite Hp; simpl.
    rewrite bool_decide_eq_true_2 by done; simpl.
    destruct (truthy_str _) eqn:Hr, (truthy_int _) eqn:Ha; simpl; try done.
    by intros [= <-].
  - intros (Hp & (Hd & Hr & Ha) & ->).
    unfold validated, process_event. unfold_py. rewrite Hp; simpl.
    rewrite bool_decide_eq_true_2 by done; simpl. by rewrite Hr, Ha.
Qed.

(** X2: an event for the configured chain, not in the store, whose recipient
    is absent or empty or whose amount is absent or zero, is turned away with
    one error line; nothing else changes. *)
Theorem process_event_missing_arguments (self : EventProcessor) (event : Event)
    (w : World) :
  is_processed (state_db self) (hex (transactionHash event)) = false ->
  destinationChainId (args event) = Some (destination_chain_id self) ->
  truthy_str (recipient (args event)) = false \/
  truthy_int (amount (args event)) = false ->
  process_event self event w
  = (Ret None,
     extend w [Log INFO (ProcessingNew (hex (transactionHash event)));
               Log ERROR (MissingArguments (hex (transactionHash event)))]).
Proof.
  intros Hp Hd Hm. unfold process_event. unfold_py. rewrite Hp; simpl.
  rewrite bool_decide_eq_true_2 by done; simpl.
  destruct Hm as [Hm|Hm]; rewrite Hm; simpl; [by normal_world|].
  destruct (truthy_str _); simpl; by normal_world.
Qed.

Lemma process_event_missing_arguments_witness :
  truthy_int (amount (args deposit_of_nothing)) = false /\
  process_event (processor (store_of []) 137) deposit_of_nothing (world_with None true [])
  = (Ret None,
     extend (world_with None true [])
       [Log INFO (ProcessingNew "0xaa"); Log ERROR (MissingArguments "0xaa")]).
Proof.
  split; [reflexivity|].
  apply (process_event_missing_arguments (processor (store_of []) 137)
           deposit_of_nothing (world_with None true []));
    [reflexivity | reflexivity | right; reflexivity].
Defined.

(* ===================================================================== *)
(** ** Further properties: StateDB *)
(* ===================================================================== *)

(** X3: after [mark_as_processed] the object holds the hash, whether or not
    the file could be written; what it says of any other hash is unchanged;
    marking the hash again changes neither object nor world. *)
Theorem mark_then_lookup (self : StateDB) (h h' : string) (w : World) :
  exists self' w',
    mark_as_processed self h w = (Ret self', w') /\
    filepath self' = filepath self /\
    is_processed self' h = true /\
    (h' <> h -> is_processed self' h' = is_processed self h') /\
    mark_as_processed self' h w' = (Ret self', w').
Proof.
  destruct (is_processed self h) eqn:Hp.
  - exists self, w. rewrite mark_as_processed_cases, Hp. done.
  - assert (Hin : is_processed (appended self h) h = true).
    { apply is_processed_elem; simpl. apply elem_of_app. right.
      by apply list_elem_of_singleton. }
    assert (Hother : h' <> h -> is_processed (appended self h) h' = is_processed self h').
    { intros Hne. unfold is_processed; simpl. apply bool_decide_ext.
      rewrite elem_of_app, list_elem_of_singleton.
      split; [by intros [Hin'|Heq]|intros Hin'; by left]. }
    rewrite mark_as_processed_cases, Hp.
    destruct (write_ok w); eexists _, _; (split; [reflexivity|]);
      repeat split; try done; by rewrite mark_as_processed_cases, Hin.
Qed.

(** X4: [_save] returns in every case.  When the file can be written, a new
    instance over it is the saved object, whatever the file held before, and
    nothing is logged; when [open] raises, the file system is as it was and
    one error line is logged; when the write fails after [open] has emptied
    the file, one error line is logged and the file is left as no JSON, over
    which a new instance starts empty. *)
Theorem save_then_load (self : StateDB) (w : World) :
  exists w',
    _save self w = (Ret tt, w') /\
    (write_ok w = true ->
     trace w' = trace w /\ StateDB_init (filepath self) w' = (Ret self, w')) /\
    (write_ok w = false -> write_tears w = false ->
     w' = extend w [Log ERROR (SaveFailed (filepath self))]) /\
    (write_ok w = false -> write_tears w = true ->
     w' = extend (write_file (filepath self) Garbage w)
            [Log ERROR (SaveFailed (filepath self))] /\
     StateDB_init (filepath self) w'
     = (Ret {| filepath := filepath self; processed_hashes := [] |},
        extend w' [Log ERROR (LoadFailed (filepath self))])).
Proof.
  unfold _save, dump_state. unfold_py. destruct (write_ok w) eqn:Hw.
  - eexists. split; [reflexivity|]. split; [|done]. intros _. split; [done|].
    unfold StateDB_init, bind. rewrite _load_cases. simpl.
    rewrite lookup_insert_eq. by destruct self.
  - destruct (write_tears w) eqn:Ht; simpl.
    + eexists. split; [reflexivity|]. split; [done|]. split; [done|].
      intros _ _. split; [by normal_world|].
      unfold StateDB_init, bind. rewrite _load_cases. simpl.
      by rewrite lookup_insert_eq.
    + eexists. split; [reflexivity|]. split; [done|]. split; [|done].
      intros _ _. by normal_world.
Qed.

(** X5: two kinds of state file stop the construction of a [StateDB], with
    exceptions [_load] does not handle: bytes that are no UTF-8 text
    ([UnicodeDecodeError] out of [json.load]) and JSON that is no object
    ([AttributeError] out of [data.get]).  Whenever the construction raises,
    the exception is neither [IOError] nor [JSONDecodeError], which [_load]
    handles, and nothing was logged or changed. *)
Theorem startup_raises_what_load_does_not_handle (path : string) (w : World) :
  (files w !! path = Some NotUtf8 ->
   StateDB_init path w = (Raise UnicodeDecodeError, w)) /\
  (files w !! path = Some JsonOther ->
   StateDB_init path w = (Raise AttributeError, w)) /\
  (forall e w', StateDB_init path w = (Raise e, w') ->
                io_or_json_error e = false /\ w' = w).
Proof.
  unfold StateDB_init, bind. rewrite _load_cases. split; [|split].
  - by intros ->.
  - by intros ->.
  - intros e w'. destruct (files w !! path) as [[| | |[hs|]|]|]; simpl;
      intros Hr; try discriminate Hr; by injection Hr as <- <-.
Qed.

(** X6: over a state file that holds an object with a list of strings under
    [processed_hashes], a new instance holds that list as it stands there,
    nothing is logged, and the instance reports as processed exactly the
    hashes of the list. *)
Theorem startup_takes_the_file_list (path : string) (hashes : list string) (w : World) :
  files w !! path = Some (JsonObject (Some hashes)) ->
  StateDB_init path w = (Ret {| filepath := path; processed_hashes := hashes |}, w) /\
  forall fresh w' h,
    StateDB_init path w = (Ret fresh, w') ->
    (is_processed fresh h = true <-> h ∈ hashes).
Proof.
  intros Hf. unfold StateDB_init, bind. rewrite _load_cases, Hf. split; [done|].
  intros fresh w' h [= <- <-]. apply is_processed_elem.
Qed.

Lemma startup_takes_the_file_list_witness :
  files (world_with (Some (JsonObject (Some ["0xaa"; "0xbb"]))) true []) !! STATE_FILE
  = Some (JsonObject (Some ["0xaa"; "0xbb"])) /\
  StateDB_init STATE_FILE (world_with (Some (JsonObject (Some ["0xaa"; "0xbb"]))) true [])
  = (Ret (store_of ["0xaa"; "0xbb"]),
     world_with (Some (JsonObject (Some ["0xaa"; "0xbb"]))) true []).
Proof.
  split; [reflexivity|].
  apply (startup_takes_the_file_list STATE_FILE ["0xaa"; "0xbb"]
           (world_with (Some (JsonObject (Some ["0xaa"; "0xbb"]))) true [])).
  reflexivity.
Defined.

(* ===================================================================== *)
(** ** Further properties: TransactionBroadcaster *)
(* ===================================================================== *)

(** X7: in simulate mode [broadcast] sends nothing and waits for nothing:
    the only calls to the node ask for the transaction count and the gas
    price; the result is the hash of the signed transaction when count,
    encoding, price, building and signing all went well, and [None]
    otherwise. *)
Theorem simulate_sends_nothing (self : TransactionBroadcaster) (tx_data : PreparedTx)
    (w : World) :
  simulate_only self = true ->
  let r := hd unreachable (node w) in
  exists sent,
    broadcast self tx_data w
    = (Ret (if ready_to_send r then option_map hex (sign_transaction r) else None),
       extend (drop_reply w) sent) /\
    forall e, In e sent -> is_node_call e = true ->
              e = RpcGetTransactionCount (account_address self) \/ e = RpcGasPrice.
Proof.
  intros Hsim r. rewrite broadcast_frame. fold r.
  exists (snd (broadcast_against self tx_data r)).
  unfold broadcast_against, broadcast, ready_to_send. unfold_py. simpl.
  destruct r as [cnt enc gp bld sgn snt rcp]; simpl. rewrite Hsim.
  split_py; (split; [reflexivity|]); intros e Hin Hc; simpl in Hin;
    repeat (destruct Hin as [<-|Hin]; try discriminate Hc; auto); done.
Qed.

Lemma simulate_sends_nothing_witness :
  simulate_only (relayer true) = true /\
  exists sent,
    broadcast (relayer true) prepared_deposit (world_with None true [timed_out])
    = (Ret (Some "0x01"), extend (drop_reply (world_with None true [timed_out])) sent) /\
    forall e, In e sent -> is_node_call e = true ->
              e = RpcGetTransactionCount "0xRelayer" \/ e = RpcGasPrice.
Proof.
  split; [reflexivity|].
  apply (simulate_sends_nothing (relayer true) prepared_deposit
           (world_with None true [timed_out])).
  reflexivity.
Defined.

(** X8: when the transaction count, the encoding of the call, the gas price,
    the building or the signing fails, [broadcast] returns [None] in either
    mode, sends nothing, and its last act is the error line of its handler;
    a world without node answers is such a case. *)
Theorem broadcast_fails_before_send (self : TransactionBroadcaster)
    (tx_data : PreparedTx) (w : World) :
  ready_to_send (hd unreachable (node w)) = false ->
  exists sent,
    broadcast self tx_data w = (Ret None, extend (drop_reply w) sent) /\
    submissions sent = 0%nat /\
    last sent = Some (Log ERROR BroadcastFailed).
Proof.
  intros Hr. rewrite broadcast_frame.
  exists (snd (broadcast_against self tx_data (hd unreachable (node w)))).
  revert Hr. unfold broadcast_against, broadcast, ready_to_send. unfold_py. simpl.
  destruct (hd unreachable (node w)) as [cnt enc gp bld sgn snt rcp]; simpl.
  destruct cnt, enc, gp, bld, sgn; simpl; try discriminate; intros _; done.
Qed.

Lemma broadcast_fails_before_send_witness :
  ready_to_send (hd unreachable (node (world_with None true []))) = false /\
  exists sent,
    broadcast (relayer false) prepared_deposit (world_with None true [])
    = (Ret None, extend (drop_reply (world_with None true [])) sent) /\
    submissions sent = 0%nat /\
    last sent = Some (Log ERROR BroadcastFailed).
Proof.
  split; [reflexivity|].
  apply (broadcast_fails_before_send (relayer false) prepared_deposit
           (world_with None true [])).
  reflexivity.
Defined.

(** X9: in live mode, once everything before the send went well, the calls
    to the node are, in this order: transaction count, gas price, the send
    of the transaction built from the prepared data, the account, the node's
    count as nonce, a gas limit of 200000 and the node's price, and then,
    if the send returned a hash, a wait for the receipt of that hash of at
    most 120 seconds.  The result is the sent hash when the receipt has
    status 1 and [None] in every other case. *)
Theorem live_broadcast_calls (self : TransactionBroadcaster) (tx_data : PreparedTx)
    (w : World) :
  simulate_only self = false ->
  let r := hd unreachable (node w) in
  ready_to_send r = true ->
  exists n g sent,
    get_transaction_count r = Some n /\
    gas_price r = Some g /\
    broadcast self tx_data w
    = (Ret match send_raw_transaction r, wait_for_transaction_receipt r with
           | Some h, Some receipt => if status receipt =? 1 then Some (hex h) else None
           | _, _ => None
           end,
       extend (drop_reply w) sent) /\
    List.filter is_node_call sent
    = ([RpcGetTransactionCount (account_address self); RpcGasPrice;
        RpcSendRawTransaction (payload_for self tx_data n g)]
       ++ match send_raw_transaction r with
          | Some h => [RpcWaitForReceipt h 120]
          | None => []
          end)%list.
Proof.
  intros Hlive r Hr. rewrite broadcast_frame. fold r.
  revert Hr. unfold broadcast_against, broadcast, ready_to_send, payload_for.
  unfold_py. simpl.
  destruct r as [cnt enc gp bld sgn snt rcp]; simpl. rewrite Hlive.
  destruct cnt as [n|], gp as [g|], sgn as [s|], enc, bld; simpl; try discriminate.
  intros _. exists n, g.
  destruct snt as [h|]; simpl; [|by eexists].
  destruct rcp as [rc|]; simpl; [|by eexists].
  destruct (status rc =? 1); simpl; by eexists.
Qed.

Lemma live_broadcast_calls_witness :
  simulate_only (relayer false) = false /\
  ready_to_send (hd unreachable (node (world_with None true [reverted]))) = true /\
  exists n g sent,
    get_transaction_count reverted = Some n /\
    gas_price reverted = Some g /\
    broadcast (relayer false) prepared_deposit (world_with None true [reverted])
    = (Ret None, extend (drop_reply (world_with None true [reverted])) sent) /\
    List.filter is_node_call sent
    = [RpcGetTransactionCount "0xRelayer"; RpcGasPrice;
       RpcSendRawTransaction (payload_for (relayer false) prepared_deposit n g);
       RpcWaitForReceipt [x01] 120].
Proof.
  split; [reflexivity|]. split; [reflexivity|].
  apply (live_broadcast_calls (relayer false) prepared_deposit
           (world_with None true [reverted]));
    reflexivity.
Defined.

(** X10: [get_gas_price_from_api] makes one request to the given address and
    touches neither the state file nor the node's answers.  It returns a
    price exactly for a fee that is truthy, reads as a decimal number and
    gives, times 10^9, an amount from 0 to 2^256 - 1: the price is that
    amount cut to an integer.  It returns [None] exactly when the request
    fails, which it logs as an error, or the fee is absent or falsy.  In the
    remaining cases (a body or a ['fast'] that is no object, a fee out of
    range or no number) it raises an exception it does not handle, and logs
    nothing. *)
Theorem oracle_price (self : TransactionBroadcaster) (api_url : string) (w : World) :
  exists res tr,
    get_gas_price_from_api self api_url w = (res, extend w tr) /\
    List.filter is_http tr = [HttpGet api_url] /\
    (forall p, res = Ret (Some p) <->
               exists mantissa places,
                 oracle w api_url = GasStation (Gwei mantissa places) /\
                 0 <= mantissa * 1000000000 <= MAX_WEI * 10 ^ Z.of_nat places /\
                 p = mantissa * 1000000000 / 10 ^ Z.of_nat places) /\
    (res = Ret None <->
     oracle w api_url = RequestFails \/ oracle w api_url = GasStation NoFee) /\
    (oracle w api_url = RequestFails -> tr = [HttpGet api_url; Log ERROR GasApiFailed]) /\
    (oracle w api_url = BodyMalformed -> res = Raise AttributeError) /\
    (forall e, res = Raise e -> is_request_exception e = false /\ tr = [HttpGet api_url]).
Proof.
  rewrite get_gas_price_from_api_cases.
  destruct (oracle w api_url) as [| |[|m places| | |]] eqn:Ho;
    eexists _, _; (split; [reflexivity|]); (split; [reflexivity|]).
  - split; [intros p; split; [done|by intros (? & ? & ? & _)]|].
    split; [split; [by left|done]|]. split; [done|]. split; [done|]. by intros e [=].
  - split; [intros p; split; [done|by intros (? & ? & ? & _)]|].
    split; [split; [done|by intros [?|?]]|]. split; [done|]. split; [done|].
    by intros e [= <-].
  - split; [intros p; split; [done|by intros (? & ? & ? & _)]|].
    split; [split; [by right|done]|]. split; [done|]. split; [done|]. by intros e [=].
  - assert (Hpos : 0 < 10 ^ Z.of_nat places) by (apply Z.pow_pos_nonneg; lia).
    destruct (Z.ltb_spec m 0) as [Hm|Hm]; simpl;
      [|destruct (Z.ltb_spec (MAX_WEI * 10 ^ Z.of_nat places) (m * 1000000000)) as [Hl|Hl]].
    + split; [intros p; split; [done|]; intros (m' & p' & [= <- <-] & Hr & _); lia|].
      split; [split; [done|by intros [?|?]]|]. split; [done|]. split; [done|].
      by intros e [= <-].
    + split; [intros p; split; [done|]; intros (m' & p' & [= <- <-] & Hr & _); lia|].
      split; [split; [done|by intros [?|?]]|]. split; [done|]. split; [done|].
      by intros e [= <-].
    + split.
      { intros p; split.
        - intros [= <-]. exists m, places. split; [done|]. split; [lia|done].
        - intros (m' & p' & [= <- <-] & _ & ->). done. }
      split; [split; [done|by intros [?|?]]|]. split; [done|]. split; [done|].
      by intros e [=].
  - split; [intros p; split; [done|by intros (? & ? & ? & _)]|].
    split; [split; [done|by intros [?|?]]|]. split; [done|]. split; [done|].
    by intros e [= <-].
  - split; [intros p; split; [done|by intros (? & ? & ? & _)]|].
    split; [split; [done|by intros [?|?]]|]. split; [done|]. split; [done|].
    by intros e [= <-].
  - split; [intros p; split; [done|by intros (? & ? & ? & _)]|].
    split; [split; [done|by intros [?|?]]|]. split; [done|]. split; [done|].
    by intros e [= <-].
Qed.

(* ===================================================================== *)
(** ** Further properties: the pipeline and the loop *)
(* ===================================================================== *)

Lemma broadcast_relay_effects (self : TransactionBroadcaster) (tx_data : PreparedTx)
    (r : node_reply) :
  forallb is_relay_effect (snd (broadcast_against self tx_data r)) = true.
Proof.
  unfold broadcast_against, broadcast. unfold_py. simpl.
  destruct r as [cnt enc gp bld sgn snt rcp]; simpl.
  split_py; done.
Qed.

Lemma broadcast_sends_payload (self : TransactionBroadcaster) (tx_data : PreparedTx)
    (r : node_reply) (tx : TxPayload) :
  In (RpcSendRawTransaction tx) (snd (broadcast_against self tx_data r)) ->
  simulate_only self = false /\ exists n g, tx = payload_for self tx_data n g.
Proof.
  unfold broadcast_against, broadcast, payload_for. unfold_py. simpl.
  destruct r as [cnt enc gp bld sgn snt rcp]; simpl.
  split_py; intros Hin; simpl in Hin;
    repeat (destruct Hin as [Hin|Hin]; try discriminate Hin); try done;
    injection Hin as <-; (split; [done|]); by eexists _, _.
Qed.

Lemma logs_are_relay_effects (tr : list effect) :
  forallb is_log tr = true -> forallb is_relay_effect tr = true.
Proof.
  induction tr as [|[] tr IH]; simpl; done.
Qed.

(** One run of the pipeline, with all it does: it returns; it logs and calls
    the node and does nothing else; it leaves the listener and the files
    alone unless it records the event's hash, which the store did not hold. *)
Lemma relay_effects (self : BridgeContractListener) (event : Event) (w : World) :
  let h := hex (transactionHash event) in
  let db := state_db (event_processor self) in
  exists self' w' tr,
    relay self event w = (Ret self', w') /\
    trace w' = (trace w ++ tr)%list /\
    forallb is_relay_effect tr = true /\
    write_ok w' = write_ok w /\
    ((self' = self /\ files w' = files w) \/
     ((h ∉ stored self) /\
      self' = with_state_db self (appended db h) /\
      files w' = if write_ok w
                 then <[filepath db := JsonObject (Some (processed_hashes (appended db h)))]>
                        (files w)
                 else files (failed_write db w))) /\
    (forall tx, In (RpcSendRawTransaction tx) tr ->
                is_processed db h = false /\
                valid_for (event_processor self) event /\
                simulate_only (dest_broadcaster self) = false /\
                exists n g, tx = payload_for (dest_broadcaster self) (prepared_from event) n g).
Proof.
  intros h db. subst h db. rewrite relay_cases. cbv zeta.
  pose proof (process_event_only_logs (event_processor self) event) as Hlogs.
  pose proof (logs_are_relay_effects _ Hlogs) as Hrel.
  assert (Hnosend : forall tx (tr : list effect),
             forallb is_log tr = true -> ~ In (RpcSendRawTransaction tx) tr).
  { intros tx tr Hl Hin. rewrite forallb_forall in Hl. by specialize (Hl _ Hin). }
  destruct (fst (validated (event_processor self) event)) as [[tx0|]|e] eqn:Ho.
  3:{ destruct (process_event_returns (event_processor self) event) as [o Ho'].
      rewrite Ho in Ho'. discriminate Ho'. }
  2:{ eexists _, _, _. split; [reflexivity|]. split; [reflexivity|].
      split; [done|]. split; [done|]. split; [by left|].
      intros tx Hin. by apply Hnosend in Hin. }
  pose proof (validated_some _ _ _ Ho) as (Hp & Hv & ->).
  set (r := hd unreachable (node w)).
  pose proof (broadcast_relay_effects (dest_broadcaster self) (prepared_from event) r)
    as Hbrel.
  assert (Hsend : forall tx,
             In (RpcSendRawTransaction tx)
               (snd (validated (event_processor self) event)
                ++ snd (broadcast_against (dest_broadcaster self) (prepared_from event) r)) ->
             is_processed (state_db (event_processor self)) (hex (transactionHash event))
             = false /\
             valid_for (event_processor self) event /\
             simulate_only (dest_broadcaster self) = false /\
             exists n g, tx = payload_for (dest_broadcaster self) (prepared_from event) n g).
  { intros tx Hin. apply in_app_or in Hin as [Hin|Hin]; [by apply Hnosend in Hin|].
    apply broadcast_sends_payload in Hin as [Hl Hpay]. done. }
  destruct (broadcast_returns (dest_broadcaster self) (prepared_from event) r) as [b Hb].
  rewrite Hb. destruct b as [hb|].
  2:{ eexists _, _, _. split; [reflexivity|]. split; [reflexivity|].
      split; [by rewrite forallb_app, Hrel, Hbrel|]. split; [done|].
      split; [by left|]. exact Hsend. }
  rewrite mark_as_processed_cases, Hp.
  apply is_processed_not_elem in Hp.
  cbn [write_ok extend drop_reply].
  destruct (write_ok w) eqn:Hw.
  - eexists _, _, _. split; [reflexivity|].
    split; [simpl; by rewrite <- app_assoc|].
    split; [by rewrite !forallb_app, Hrel, Hbrel|]. split; [done|].
    split; [right; done|].
    intros tx Hin. apply in_app_or in Hin as [Hin|Hin];
      [destruct (Hsend tx Hin) as (_ & ? & ? & ?); done|].
    simpl in Hin. destruct Hin as [Hin|[]]. discriminate Hin.
  - eexists _, _, _. split; [reflexivity|].
    split; [simpl; rewrite failed_write_trace; simpl; by rewrite <- app_assoc|].
    split; [by rewrite !forallb_app, Hrel, Hbrel|].
    split; [simpl; unfold failed_write; by destruct (write_tears _)|].
    split; [right; split; [done|]; split; [done|];
            simpl; unfold failed_write; simpl; by destruct (write_tears w)|].
    intros tx Hin. apply in_app_or in Hin as [Hin|Hin];
      [destruct (Hsend tx Hin) as (_ & ? & ? & ?); done|].
    simpl in Hin. destruct Hin as [Hin|[Hin|[]]]; discriminate Hin.
Qed.

(** X11: a transaction the pipeline sends for an event mints the event's
    amount to the event's recipient under the event's transaction hash, from
    the relayer's account with a gas limit of 200000; one is sent only in
    live mode, only for an event of the configured chain with recipient and
    amount, whose hash the store does not hold, and at most one per run. *)
Theorem relay_sends_the_deposit (self : BridgeContractListener) (event : Event)
    (w : World) :
  exists self' w' tr,
    relay self event w = (Ret self', w') /\
    trace w' = (trace w ++ tr)%list /\
    (submissions tr <= 1)%nat /\
    forall tx, In (RpcSendRawTransaction tx) tr ->
      mint_recipient tx = recipient (args event) /\
      mint_amount tx = amount (args event) /\
      mint_sourceTxHash tx = transactionHash event /\
      tx_from tx = account_address (dest_broadcaster self) /\
      tx_gas tx = 200000 /\
      simulate_only (dest_broadcaster self) = false /\
      valid_for (event_processor self) event /\
      is_processed (state_db (event_processor self)) (hex (transactionHash event)) = false.
Proof.
  destruct (relay_effects self event w) as (self' & w' & tr & Hr & Ht & _ & _ & _ & Hs).
  destruct (relay_step self event w) as (self1 & w1 & Hr1 & _ & Hn).
  rewrite Hr in Hr1. injection Hr1 as <- <-.
  exists self', w', tr. split; [exact Hr|]. split; [exact Ht|]. split.
  - rewrite Ht, submissions_app in Hn. lia.
  - intros tx Hin. destruct (Hs tx Hin) as (Hp & Hv & Hl & n & g & ->). done.
Qed.

Lemma extend_cons (w : World) (e : effect) (tr : list effect) :
  extend w (e :: tr) = extend (emit e w) tr.
Proof. unfold extend, emit; simpl. by rewrite <- app_assoc. Qed.

Lemma extend_nil (w : World) : extend w [] = w.
Proof. destruct w; unfold extend; simpl. by rewrite app_nil_r. Qed.

(** A property of listener and world that log lines and the pipeline keep is
    kept by a batch of events, which is worked through to its end. *)
Lemma for_events_preserves (I : BridgeContractListener -> World -> Prop)
    (events : list Event) :
  (forall self w lvl msg, I self w -> I self (emit (Log lvl msg) w)) ->
  (forall self event w self' w',
      I self w -> relay self event w = (Ret self', w') -> I self' w') ->
  forall self latest_block w,
    I self w ->
    exists self' w', for_events self latest_block events w = (Ret self', w') /\ I self' w'.
Proof.
  intros Hlog Hrelay. induction events as [|event rest IH]; intros self lb w Hi; simpl.
  - by eexists _, _.
  - assert (exists self1 w1, loop_body self lb event w = (Ret self1, w1) /\ I self1 w1)
      as (self1 & w1 & H1 & Hi1).
    { unfold loop_body. destruct (too_recent _ _ _).
      - eexists _, _. split; [reflexivity|]. by apply Hlog.
      - destruct (relay_returns self event w) as (self1 & w1 & Hr & _).
        exists self1, w1. split; [exact Hr|]. by eapply Hrelay. }
    unfold bind. rewrite H1. by apply IH.
Qed.

(** One pass after a poll that delivered events. *)
Lemma run_once_polled (self self' : BridgeContractListener) (latest_block : Z)
    (events : list Event) (w w' : World) :
  for_events self latest_block events w = (Ret self', w') ->
  run_once self (Polled latest_block events) w
  = (Ret self', emit (Sleep (poll_interval self)) w').
Proof.
  intros Hf. unfold run_once. unfold_py. simpl. by rewrite Hf.
Qed.

(** One pass after a poll that failed: the handler of [BlockNotFound] creates
    the filter anew and sleeps; when [create_filter] raises there, the
    exception leaves the pass before the sleep. *)
Lemma run_once_failed (self : BridgeContractListener) (w : World) :
  run_once self (PollBlockNotFound true) w
  = (Ret self, extend w [Log WARNING BlockNotFoundReinit; CreateFilter;
                         Sleep (poll_interval self * 2)]) /\
  run_once self PollFails w
  = (Ret self, extend w [Log ERROR ListenerError; Sleep (poll_interval self * 2)]) /\
  run_once self (PollBlockNotFound false) w
  = (Raise Web3Error, extend w [Log WARNING BlockNotFoundReinit; CreateFilter]).
Proof.
  unfold run_once, create_filter. unfold_py. simpl. repeat split; by normal_world.
Qed.

(** The loop over two stretches of passes. *)
Lemma run_app (first rest : list poll) (self : BridgeContractListener) (w : World) :
  run self (first ++ rest) w = (self1 <- run self first ;; run self1 rest) w.
Proof.
  revert self w. induction first as [|p first IH]; intros self w; simpl; [done|].
  unfold bind. destruct (run_once self p w) as [[self1|e] w1]; [|done].
  rewrite IH. reflexivity.
Qed.

(** A [create_filter] that raises ends the loop: no later pass is made. *)
Lemma run_ends (rest : list poll) (self : BridgeContractListener) (w : World) :
  run self (PollBlockNotFound false :: rest) w
  = (Raise Web3Error, extend w [Log WARNING BlockNotFoundReinit; CreateFilter]).
Proof.
  cbn [run]. unfold bind. by destruct (run_once_failed self w) as (_ & _ & ->).
Qed.

(** A property that log lines, sleeps, new filters and the pipeline keep is
    kept by the loop, which returns after its last pass when every
    [create_filter] went through. *)
Lemma run_preserves (I : BridgeContractListener -> World -> Prop) (polls : list poll) :
  filters_recreated polls = true ->
  (forall self w e,
      is_log e || is_sleep e || is_create_filter e = true ->
      I self w -> I self (emit e w)) ->
  (forall self event w self' w',
      I self w -> relay self event w = (Ret self', w') -> I self' w') ->
  forall self w,
    I self w -> exists self' w', run self polls w = (Ret self', w') /\ I self' w'.
Proof.
  intros Hok Hemit Hrelay. induction polls as [|p rest IH]; intros self w Hi; simpl.
  - by eexists _, _.
  - simpl in Hok. apply andb_true_iff in Hok as [Hp Hrest].
    assert (exists self1 w1, run_once self p w = (Ret self1, w1) /\ I self1 w1)
      as (self1 & w1 & H1 & Hi1).
    { destruct p as [lb events|[|]|]; [| |done|].
      - destruct (for_events_preserves I events) with (self := self)
          (latest_block := lb) (w := w) as (self1 & w1 & Hf & Hi1); try done.
        { intros s0 w0 lvl msg. by apply Hemit. }
        eexists _, _. split; [by apply run_once_polled|]. by apply Hemit.
      - destruct (run_once_failed self w) as (-> & _ & _).
        eexists _, _. split; [reflexivity|].
        rewrite !extend_cons, extend_nil. by repeat apply Hemit.
      - destruct (run_once_failed self w) as (_ & -> & _).
        eexists _, _. split; [reflexivity|].
        rewrite !extend_cons, extend_nil. by repeat apply Hemit. }
    unfold bind. rewrite H1. by apply IH.
Qed.

Lemma relay_keeps_configuration (self : BridgeContractListener) (event : Event)
    (w : World) (self' : BridgeContractListener) (w' : World) :
  relay self event w = (Ret self', w') ->
  same_configuration self' self /\
  (stored self' = stored self \/
   ((hex (transactionHash event) ∉ stored self) /\
    stored self' = (stored self ++ [hex (transactionHash event)])%list)).
Proof.
  intros Hr.
  destruct (relay_effects self event w)
    as (self1 & w1 & tr & Hr1 & _ & _ & _ & [[E _]|(Hn & E & _)] & _);
    rewrite Hr in Hr1; injection Hr1 as <- <-; rewrite E.
  - split; [by repeat split|by left].
  - split; [by repeat split|by right].
Qed.



(** The loop ended by a [create_filter] that raises: the deposit of the pass
    before is recorded, the deposit of the pass after is never seen. *)
Example run_ends_when_create_filter_raises :
  let out := run (listener_with false [])
               [Polled 106 [deposit]; PollBlockNotFound false; Polled 110 [other_deposit]]
               (world_with None true [confirmed; confirmed]) in
  fst out = Raise Web3Error /\
  node (snd out) = [confirmed] /\
  files (snd out) !! STATE_FILE = Some (JsonObject (Some ["0xaa"])) /\
  last (trace (snd out)) = Some CreateFilter.
Proof. vm_compute. repeat split. Qed.

(** Either every [create_filter] goes through, or there is a first one that
    raises. *)
Lemma filters_recreated_cases (polls : list poll) :
  filters_recreated polls = true \/
  exists before after,
    polls = (before ++ PollBlockNotFound false :: after)%list /\
    filters_recreated before = true.
Proof.
  induction polls as [|p polls IH]; [by left|].
  destruct p as [lb evs|[|]|].
  - destruct IH as [IH|(before & after & -> & Hb)]; [by left|].
    right. by exists (Polled lb evs :: before), after.
  - destruct IH as [IH|(before & after & -> & Hb)]; [by left|].
    right. by exists (PollBlockNotFound true :: before), after.
  - right. by exists [], polls.
  - destruct IH as [IH|(before & after & -> & Hb)]; [by left|].
    right. by exists (PollFails :: before), after.
Qed.

Lemma run_stays_distinct (polls : list poll) (self : BridgeContractListener)
    (w : World) :
  filters_recreated polls = true ->
  NoDup (stored self) ->
  exists self' w', run self polls w = (Ret self', w') /\ NoDup (stored self').
Proof.
  intros Hok Hnd.
  apply (run_preserves (fun self1 _ => NoDup (stored self1))); [done|done| |done].
  intros self1 event w1 self2 w2 Hnd1 Hr.
  apply relay_keeps_configuration in Hr as [_ [->|[Hn ->]]]; [done|].
  apply NoDup_app. split; [done|]. split; [|apply NoDup_singleton].
  intros x Hx Hx'%list_elem_of_singleton. by subst.
Qed.

(** X13: a list of processed hashes without duplicates is without duplicates
    after any number of passes, whatever events are delivered, also the same
    event many times: at the end of the loop when every [create_filter] goes
    through, and otherwise at the [create_filter] that raises and ends the
    loop, in a pass that works on no event. *)
Theorem run_keeps_hashes_distinct (polls : list poll) (self : BridgeContractListener)
    (w : World) :
  NoDup (stored self) ->
  (filters_recreated polls = true ->
   exists self' w', run self polls w = (Ret self', w') /\ NoDup (stored self')) /\
  (forall before after,
      polls = (before ++ PollBlockNotFound false :: after)%list ->
      filters_recreated before = true ->
      exists self1 w1,
        run self before w = (Ret self1, w1) /\
        NoDup (stored self1) /\
        run self polls w
        = (Raise Web3Error,
           extend w1 [Log WARNING BlockNotFoundReinit; CreateFilter])).
Proof.
  intros Hnd. split; [intros Hok; by apply run_stays_distinct|].
  intros before after -> Hok.
  destruct (run_stays_distinct before self w Hok Hnd) as (self1 & w1 & Hr & Hnd1).
  exists self1, w1. split; [exact Hr|]. split; [exact Hnd1|].
  rewrite run_app. unfold bind. rewrite Hr. apply run_ends.
Qed.

Lemma run_keeps_hashes_distinct_witness :
  NoDup (stored (listener_with false [])) /\
  exists self' w',
    run (listener_with false []) [Polled 106 [deposit; deposit]; Polled 107 [deposit]]
      (world_with None true [confirmed; confirmed; confirmed]) = (Ret self', w')
    /\ NoDup (stored self').
Proof.
  split; [apply NoDup_nil_2|].
  apply (run_keeps_hashes_distinct
           [Polled 106 [deposit; deposit]; Polled 107 [deposit]]
           (listener_with false [])
           (world_with None true [confirmed; confirmed; confirmed]));
    [apply NoDup_nil_2|reflexivity].
Defined.

Lemma StateDB_init_reads_files (path : string) (w1 w2 : World) :
  files w1 = files w2 ->
  fst (StateDB_init path w1) = fst (StateDB_init path w2).
Proof.
  intros Hf. unfold StateDB_init, bind. rewrite !_load_cases, Hf.
  by destruct (files w2 !! path) as [[| | |[hs|]|]|].
Qed.

Lemma run_stays_restart_safe (polls : list poll) (self : BridgeContractListener)
    (w : World) :
  filters_recreated polls = true ->
  write_ok w = true ->
  restart_safe (state_db (event_processor self)) w ->
  exists self' w',
    run self polls w = (Ret self', w') /\
    restart_safe (state_db (event_processor self')) w'.
Proof.
  intros Hok Hw Hs.
  destruct (run_preserves
              (fun self1 w1 => write_ok w1 = true /\
                               restart_safe (state_db (event_processor self1)) w1)
              polls Hok) with (self := self) (w := w) as (self' & w' & Hr & _ & Hs');
    [| |done|by eexists _, _].
  - intros self1 w1 e _ [Hw1 Hs1]. split; [done|].
    unfold restart_safe in *. by rewrite (StateDB_init_reads_files _ _ w1).
  - intros self1 event w1 self2 w2 [Hw1 Hs1] Hr.
    destruct (relay_effects self1 event w1)
      as (s & w0 & tr & Hr1 & _ & _ & Hwo & [[E Hf]|(_ & E & Hf)] & _);
      rewrite Hr in Hr1; injection Hr1 as <- <-; rewrite E.
    + split; [congruence|]. unfold restart_safe in *.
      by rewrite (StateDB_init_reads_files _ _ w1).
    + split; [congruence|]. rewrite Hw1 in Hf. unfold restart_safe.
      unfold StateDB_init, bind. rewrite _load_cases, Hf. simpl.
      by rewrite lookup_insert_eq.
Qed.

(** X14: while the state file can be written, the loop keeps file and memory
    in step: if a new instance over the state file would have been the
    listener's store before the loop (as it is right after start-up, with or
    without a file), it is the listener's store after it: at the end of the
    loop when every [create_filter] goes through, and otherwise at the
    [create_filter] that raises and ends the loop. *)
Theorem run_keeps_restart_safe (polls : list poll) (self : BridgeContractListener)
    (w : World) :
  write_ok w = true ->
  restart_safe (state_db (event_processor self)) w ->
  (filters_recreated polls = true ->
   exists self' w',
     run self polls w = (Ret self', w') /\
     restart_safe (state_db (event_processor self')) w') /\
  (forall before after,
      polls = (before ++ PollBlockNotFound false :: after)%list ->
      filters_recreated before = true ->
      exists self1 w1 w',
        run self before w = (Ret self1, w1) /\
        run self polls w = (Raise Web3Error, w') /\
        restart_safe (state_db (event_processor self1)) w').
Proof.
  intros Hw Hs. split; [intros Hok; by apply run_stays_restart_safe|].
  intros before after -> Hok.
  destruct (run_stays_restart_safe before self w Hok Hw Hs) as (self1 & w1 & Hr & Hs1).
  exists self1, w1. eexists. split; [exact Hr|]. split.
  - rewrite run_app. unfold bind. rewrite Hr. apply run_ends.
  - unfold restart_safe in *. by rewrite (StateDB_init_reads_files _ _ w1).
Qed.

Lemma run_keeps_restart_safe_witness :
  write_ok (world_with None true [confirmed]) = true /\
  restart_safe (state_db (event_processor (listener_with false [])))
    (world_with None true [confirmed]) /\
  exists self' w',
    run (listener_with false []) [Polled 106 [deposit]]
      (world_with None true [confirmed]) = (Ret self', w') /\
    restart_safe (state_db (event_processor self')) w'.
Proof.
  split; [reflexivity|]. split; [reflexivity|].
  apply (run_keeps_restart_safe [Polled 106 [deposit]] (listener_with false [])
           (world_with None true [confirmed])); reflexivity.
Defined.

(** X15: a batch is worked through to its end, in order, whatever becomes of
    its events: the loop body returns for each event, and the events after a
    first part of the batch meet the listener and the world that part left. *)
Theorem batch_is_worked_through (first rest : list Event)
    (self : BridgeContractListener) (latest_block : Z) (w : World) :
  exists self1 w1,
    for_events self latest_block first w = (Ret self1, w1) /\
    for_events self latest_block (first ++ rest) w
    = for_events self1 latest_block rest w1.
Proof.
  revert self w. induction first as [|event first IH]; intros self w; simpl.
  - by eexists _, _.
  - destruct (loop_body_returns self latest_block event w) as (self0 & w0 & H0).
    unfold bind. rewrite H0. apply IH.
Qed.








(* ===================================================================== *)
(** ** Further properties: ChainConnector *)
(* ===================================================================== *)



Lemma connect_from_returned (link : Z -> dial) (max_retries delay : Z) (todo : nat) :
  forall self attempt self' effects,
    connect_from self link max_retries delay attempt todo = (Returned self', effects) ->
    self' = with_web3 self /\
    exists j, attempt <= j < attempt + Z.of_nat todo /\ link j = Connected.
Proof.
  induction todo as [|todo IH]; intros self attempt self' effects; cbn [connect_from].
  - discriminate.
  - destruct (link attempt) eqn:Hl.
    + destruct (connect_from self _ _ _ _ _) as [res eff] eqn:Hc. intros [= -> <-].
      destruct (IH _ _ _ _ Hc) as [-> (j & Hj & Hup)].
      split; [done|]. exists j. split; [lia|done].
    + destruct (connect_from (with_web3 self) _ _ _ _ _) as [res eff] eqn:Hc.
      intros [= -> <-]. destruct (IH _ _ _ _ Hc) as [-> (j & Hj & Hup)].
      split; [done|]. exists j. split; [lia|done].
    + destruct (connect_from (with_web3 self) _ _ _ _ _) as [res eff] eqn:Hc.
      intros [= -> <-]. destruct (IH _ _ _ _ Hc) as [-> (j & Hj & Hup)].
      split; [done|]. exists j. split; [lia|done].
    + intros [= <- <-]. split; [done|]. exists attempt. split; [lia|done].
Qed.





(** X19: [connect] returns only after an attempt within the first
    [max_retries] found the endpoint connected, and then [web3] is set: a
    connector its constructor has returned never has [web3 = None]. *)
Theorem connect_returns_connected (self self' : ChainConnector) (link : Z -> dial)
    (max_retries delay : Z) (effects : list connect_effect) :
  connect self link max_retries delay = (Returned self', effects) ->
  web3 self' = Some {| endpoint := rpc_url self |} /\
  chain_name self' = chain_name self /\
  rpc_url self' = rpc_url self /\
  exists k, 0 <= k < max_retries /\ link k = Connected.
Proof.
  unfold connect. intros Hc.
  apply connect_from_returned in Hc as [-> (j & Hj & Hup)].
  repeat split. exists j. split; [lia|done].
Qed.

Lemma connect_returns_connected_witness :
  exists self' effects,
    ChainConnector_init "DestinationChain" "http://localhost:8546" (up_after 1)
    = (Returned self', effects) /\
    web3 self' = Some {| endpoint := "http://localhost:8546" |} /\
    exists k, 0 <= k < 3 /\ up_after 1 k = Connected.
Proof.
  eexists _, _. split; [reflexivity|].
  destruct (connect_returns_connected
              {| chain_name := "DestinationChain"; rpc_url := "http://localhost:8546";
                 web3 := None |}
              _ (up_after 1) 3 5 _ eq_refl) as (Hw & _ & _ & Hk).
  split; [exact Hw|exact Hk].
Defined.

(* ===================================================================== *)
(** ** Further properties: the gate and independent events *)
(* ===================================================================== *)

(** X20: the gate does not close again as the chain grows: an event let
    through at one latest block is let through at every later one; and an
    event of block [H], zero included, is let through at every latest block
    from [H] plus the number of confirmations on. *)
Theorem gate_stays_open (self : BridgeContractListener) (event : Event) :
  (forall latest_block later,
      latest_block <= later ->
      too_recent self latest_block event = false ->
      too_recent self later event = false) /\
  (forall H latest_block,
      blockNumber event = Some H ->
      H + confirmation_blocks self <= latest_block ->
      too_recent self latest_block event = false).
Proof.
  unfold too_recent. split.
  - intros lb later Hle. destruct (truthy_int (blockNumber event)); simpl; [|done].
    rewrite !Z.ltb_ge. lia.
  - intros H lb -> Hle. simpl. destruct (negb (H =? 0)); simpl; [|done].
    apply Z.ltb_ge. lia.
Qed.

(** X21: relaying one event leaves the fate of an event with another hash
    as it was: [process_event] gives the same result and log for it before
    and after, in any world. *)
Theorem relay_leaves_other_events_alone (self self' : BridgeContractListener)
    (event other : Event) (w w' : World) :
  hex (transactionHash event) <> hex (transactionHash other) ->
  relay self event w = (Ret self', w') ->
  forall w2, process_event (event_processor self') other w2
             = process_event (event_processor self) other w2.
Proof.
  intros Hne Hr w2.
  apply relay_keeps_configuration in Hr as [(_ & Hid & _) Hs].
  assert (Hp : is_processed (state_db (event_processor self')) (hex (transactionHash other))
               = is_processed (state_db (event_processor self)) (hex (transactionHash other))).
  { unfold is_processed. apply bool_decide_ext. fold (stored self') (stored self).
    destruct Hs as [->|[_ ->]]; [done|].
    rewrite elem_of_app, list_elem_of_singleton.
    split; [intros [Hin|Heq]; [done|by destruct Hne]|intros Hin; by left]. }
  unfold process_event. by rewrite Hp, Hid.
Qed.

Lemma relay_leaves_other_events_alone_witness :
  hex (transactionHash deposit) <> hex (transactionHash other_deposit) /\
  process_event (event_processor (listener_with false ["0xaa"])) other_deposit
    (world_with None true [])
  = process_event (event_processor (listener_with false [])) other_deposit
      (world_with None true []).
Proof.
  split; [discriminate|].
  apply (relay_leaves_other_events_alone (listener_with false [])
           (listener_with false ["0xaa"]) deposit other_deposit
           (world_with None true [confirmed])
           (snd (relay (listener_with false []) deposit
                   (world_with None true [confirmed]))));
    [discriminate | vm_compute; reflexivity].
Defined.
